(** * MP-Gadget: the hierarchical time-integration core ([timestep.c])

    A shallow embedding of the integer timeline, the bin registry, the
    timestep selector and the kick engine of [timestep.c], together with
    the properties of these routines that the design document states.

    Conventions of the embedding.
    - A C [int] or [unsigned int] is a [Z]; every conversion between the
      two and every wrap-around is written out with [int_of] and
      [uint_of].  Signed overflow is modelled as two's-complement wrap.
    - A C [double] is a rational number ([Q]): the arithmetic is exact.
      The libm functions [sqrt] and [pow], the constants of [allvars.h]
      and the routines of [timefac.c] are gathered in the class
      [TimestepEnv]; the embedding is parametric in it.  The entropy
      update of the kick is given a second time on IEEE doubles
      ([kick_entropy_binary64]), to run test values in the arithmetic of
      the C code.
    - A C array is a [list]; an access outside its bounds is undefined
      behaviour and makes the embedded routine return [None].
    - [#pragma omp parallel for] loops are run in index order.  Two
      ghost fields of the state record what the loops do: [kicks] lists
      the calls of the two kick routines with their tick intervals, and
      [shared_writes] lists the writes to variables that the OpenMP
      data-sharing rules make shared between the workers of a loop.
    - [message] and [walltime_measure] have no effect on the state and
      are left out; the build is the one without [DEBUG]. *)

From Stdlib Require Import ZArith QArith Qabs Lia Lqa Bool List PrimFloat.
From stdpp Require Import base option list.

Local Open Scope Z_scope.

(** ** 32-bit integers *)

Definition int_of (z : Z) : Z := (z + 2 ^ 31) mod 2 ^ 32 - 2 ^ 31.
Definition uint_of (z : Z) : Z := z mod 2 ^ 32.

Definition INT_MIN : Z := - 2 ^ 31.
Definition INT_MAX : Z := 2 ^ 31 - 1.
Definition UINT_MAX : Z := 2 ^ 32 - 1.

(** [1 << n] on [int]. *)
Definition shl1 (n : Z) : Z := int_of (Z.shiftl 1 n).

(** [bin ? (1 << bin) : 0] *)
Definition dti_of_bin (bin : Z) : Z := if bin =? 0 then 0 else shl1 bin.


(** ** Doubles *)

Definition Qltb (x y : Q) : bool := negb (Qle_bool y x).
Definition Qnonzero (x : Q) : bool := negb (Qeq_bool x 0).

Definition vec3 : Type := Q * Q * Q.

(** [for(j = 0; j < 3; j++) v[j] += a[j] * k;] *)
Definition vec_add_scaled (v a : vec3) (k : Q) : vec3 :=
  let '(v0, v1, v2) := v in
  let '(a0, a1, a2) := a in
  (v0 + a0 * k, v1 + a1 * k, v2 + a2 * k)%Q.

(** [for(j = 0; j < 3; j++) v[j] *= k;] *)
Definition vec_scale (v : vec3) (k : Q) : vec3 :=
  let '(v0, v1, v2) := v in (v0 * k, v1 * k, v2 * k)%Q.

(** [vv = 0; for(j = 0; j < 3; j++) vv += v[j] * v[j];] *)
Definition vec_norm2 (v : vec3) : Q :=
  let '(v0, v1, v2) := v in (0 + v0 * v0 + v1 * v1 + v2 * v2)%Q.

(** ** Arrays and loops *)

Definition arr_get {A} (a : list A) (i : Z) : option A :=
  if i <? 0 then None else a !! Z.to_nat i.

Definition arr_set {A} (a : list A) (i : Z) (x : A) : option (list A) :=
  if (0 <=? i) && (i <? Z.of_nat (length a))
  then Some (<[Z.to_nat i := x]> a) else None.

(** [for(k = lo; k < lo + n; k++) body(k)] on a loop state [B]. *)
Fixpoint for_loop {B} (n : nat) (lo : Z) (body : Z -> B -> option B) (b : B)
  : option B :=
  match n with
  | O => Some b
  | S n' => b' ← body lo b; for_loop n' (lo + 1) body b'
  end.

(** ** What [timestep.c] takes from the rest of the code *)

Class TimestepEnv := {
  (** [allvars.h] *)
  TIMEBINS : Z;
  TIMEBASE : Z;
  GAMMA : Q;
  GAMMA_MINUS1 : Q;
  ADAPTIVE_GRAVSOFT_FORGAS : bool;
  BLACK_HOLES : bool;
  (** libm *)
  sqrt : Q -> Q;
  pow : Q -> Q -> Q;
  (** [timefac.c] *)
  dti_from_dloga : Q -> Z;
  dloga_from_dti : Z -> Q;
  get_dloga_for_bin : Z -> Q;
  get_gravkick_factor : Z -> Z -> Q;
  get_hydrokick_factor : Z -> Z -> Q;
  round_down_power_of_two : Z -> Z;
}.

(** ** Data model *)

(** [struct particle_data], with the SPH slot [SPHP(i)] and the black
    hole slot [BHP(i)] of the particle kept next to the base data: each
    slot belongs to one particle. *)
Record particle := mkParticle {
  PType : Z;
  TimeBin : Z;
  Ti_begstep : Z;
  Vel : vec3;
  GravAccel : vec3;
  GravPM : vec3;
  Hsml : Q;
  HydroAccel : vec3;
  Entropy : Q;
  DtEntropy : Q;
  EOMDensity : Q;
  MaxSignalVel : Q;
  BH_Mass : Q;
  BH_Mdot : Q;
  BH_TimeBinLimit : Z;
}.

(** The fields of [All] that [timestep.c] reads. *)
Record global_data := mkAll {
  TreeGravOn : Z;
  ForceEqualTimesteps : Z;
  MinSizeTimestep : Q;
  ErrTolIntAccuracy : Q;
  CourantFac : Q;
  SofteningTable : list Q;
  Time : Q;
  cf_a : Q;
  cf_a2inv : Q;
  cf_a3inv : Q;
  cf_hubble : Q;
  MaxGasVel : Q;
  MinEgySpec : Q;
  Ti_Current : Z;
}.

Inductive kick_call :=
| ShortRangeKick (i tistart tiend : Z)
| LongRangeKick (tistart tiend : Z).

(** The variables that are shared between the workers of the parallel
    loops of [advance_and_find_timesteps], apart from the particles. *)
Inductive shared_var :=
| SV_ti_min
| SV_badstepsizecount
| SV_TimeBinCount (bin : Z)
| SV_TimeBinCountType (type bin : Z).

Inductive access := AtomicFetchAndAdd | PlainStore.

Record shared_write := mkWrite {
  sw_iteration : Z;
  sw_var : shared_var;
  sw_access : access;
}.

Record state := mkState {
  All : global_data;
  P : list particle;
  ActiveParticle : list Z;
  TimeBinCount : list Z;
  TimeBinCountType : list (list Z);
  TimeBinActive : list Z;
  PM_Ti_step : Z;
  PM_Ti_start : Z;
  kicks : list kick_call;
  shared_writes : list shared_write;
}.

Definition NumPart (S : state) : Z := Z.of_nat (length (P S)).
Definition NumActiveParticle (S : state) : Z :=
  Z.of_nat (length (ActiveParticle S)).

Definition set_TimeBin (p : particle) (b : Z) : particle :=
  mkParticle (PType p) b (Ti_begstep p) (Vel p) (GravAccel p) (GravPM p)
    (Hsml p) (HydroAccel p) (Entropy p) (DtEntropy p) (EOMDensity p)
    (MaxSignalVel p) (BH_Mass p) (BH_Mdot p) (BH_TimeBinLimit p).

Definition set_Ti_begstep (p : particle) (t : Z) : particle :=
  mkParticle (PType p) (TimeBin p) t (Vel p) (GravAccel p) (GravPM p)
    (Hsml p) (HydroAccel p) (Entropy p) (DtEntropy p) (EOMDensity p)
    (MaxSignalVel p) (BH_Mass p) (BH_Mdot p) (BH_TimeBinLimit p).

Definition set_Vel (p : particle) (v : vec3) : particle :=
  mkParticle (PType p) (TimeBin p) (Ti_begstep p) v (GravAccel p) (GravPM p)
    (Hsml p) (HydroAccel p) (Entropy p) (DtEntropy p) (EOMDensity p)
    (MaxSignalVel p) (BH_Mass p) (BH_Mdot p) (BH_TimeBinLimit p).

Definition set_gas (p : particle) (v : vec3) (entropy dtentropy : Q)
  : particle :=
  mkParticle (PType p) (TimeBin p) (Ti_begstep p) v (GravAccel p) (GravPM p)
    (Hsml p) (HydroAccel p) entropy dtentropy (EOMDensity p)
    (MaxSignalVel p) (BH_Mass p) (BH_Mdot p) (BH_TimeBinLimit p).

Definition set_P (S : state) (ps : list particle) : state :=
  mkState (All S) ps (ActiveParticle S) (TimeBinCount S) (TimeBinCountType S)
    (TimeBinActive S) (PM_Ti_step S) (PM_Ti_start S) (kicks S)
    (shared_writes S).

Definition set_counts (S : state) (c : list Z) (ct : list (list Z)) : state :=
  mkState (All S) (P S) (ActiveParticle S) c ct
    (TimeBinActive S) (PM_Ti_step S) (PM_Ti_start S) (kicks S)
    (shared_writes S).

Definition set_ActiveParticle (S : state) (l : list Z) : state :=
  mkState (All S) (P S) l (TimeBinCount S) (TimeBinCountType S)
    (TimeBinActive S) (PM_Ti_step S) (PM_Ti_start S) (kicks S)
    (shared_writes S).

Definition set_TimeBinActive (S : state) (l : list Z) : state :=
  mkState (All S) (P S) (ActiveParticle S) (TimeBinCount S)
    (TimeBinCountType S) l (PM_Ti_step S) (PM_Ti_start S) (kicks S)
    (shared_writes S).

Definition set_PM_Ti (S : state) (step start : Z) : state :=
  mkState (All S) (P S) (ActiveParticle S) (TimeBinCount S)
    (TimeBinCountType S) (TimeBinActive S) step start (kicks S)
    (shared_writes S).

Definition log_kick (S : state) (k : kick_call) : state :=
  mkState (All S) (P S) (ActiveParticle S) (TimeBinCount S)
    (TimeBinCountType S) (TimeBinActive S) (PM_Ti_step S) (PM_Ti_start S)
    (kicks S ++ [k]) (shared_writes S).

Definition log_write (S : state) (w : shared_write) : state :=
  mkState (All S) (P S) (ActiveParticle S) (TimeBinCount S)
    (TimeBinCountType S) (TimeBinActive S) (PM_Ti_step S) (PM_Ti_start S)
    (kicks S) (shared_writes S ++ [w]).

(** ** Integer timeline *)

(** [inline int get_kick_ti(int start, int step)] *)
Definition get_kick_ti (start step : Z) : Z := int_of (start + step ÷ 2).

(** [get_kick_ti] called with two [unsigned int] arguments and its
    result stored in an [unsigned int], as all its callers do. *)
Definition kick_ti_u (start step : Z) : Z :=
  uint_of (get_kick_ti (int_of start) (int_of step)).

(** [int is_PM_timestep(unsigned int ti)] *)
Definition is_PM_timestep (S : state) (ti : Z) : bool :=
  ti =? uint_of (PM_Ti_start S + PM_Ti_step S).

(** The [while(dti) { bin++; dti >>= 1; }] loop of [get_timestep_bin];
    [n] bounds the number of iterations. *)
Fixpoint shift_loop (n : nat) (dti bin : Z) : Z :=
  match n with
  | O => bin
  | S n' => if dti =? 0 then bin else shift_loop n' (Z.shiftr dti 1) (bin + 1)
  end.

(** [int get_timestep_bin(unsigned int dti)]: an [unsigned int] has 32
    bits, so the loop ends within 32 iterations
    (see [shift_loop_enough]). *)
Definition get_timestep_bin (dti : Z) : Z :=
  if dti =? 0 then 0
  else if dti =? 1 then -1
  else shift_loop 32 dti (-1).

Section Model.
Context {E : TimestepEnv}.

(** ** Bin registry *)

(** [void set_timebin_active(binmask_t binmask)], with
    [BINMASK(bin) = 1 << bin]. *)
Definition set_timebin_active (binmask : Z) (S : state) : state :=
  set_TimeBinActive S
    ((fun bin => if Z.land (Z.shiftl 1 bin) binmask =? 0 then 0 else 1)
       <$> seqZ 0 TIMEBINS).

(** [int is_timebin_active(int i)] *)
Definition is_timebin_active (S : state) (i : Z) : option Z :=
  arr_get (TimeBinActive S) i.

(** [int update_active_timebins(unsigned int next_kick)]: the new
    [TimeBinActive] table and [NumForceUpdate]. *)
Definition update_active_timebins (next_kick : Z) (S : state)
  : option (state * Z) :=
  c0 ← arr_get (TimeBinCount S) 0;
  a0 ← arr_set (TimeBinActive S) 0 1;
  '(act, num) ←
    for_loop (Z.to_nat (TIMEBINS - 1)) 1
      (fun n '(act, num) =>
         let dti_bin := shl1 n in
         if next_kick `mod` uint_of dti_bin =? 0 then
           act' ← arr_set act n 1;
           c ← arr_get (TimeBinCount S) n;
           Some (act', int_of (num + c))
         else
           act' ← arr_set act n 0;
           Some (act', num))
      (a0, c0);
  Some (set_TimeBinActive S act, num).

(** One pass of the particle loop of [rebuild_activelist]. *)
Definition count_particle (act : list Z) (i : Z) (p : particle)
    (acc : list Z * list Z * list (list Z))
  : option (list Z * list Z * list (list Z)) :=
  let '(active, cnt, cntT) := acc in
  let bin := TimeBin p in
  a ← arr_get act bin;
  let active := if a =? 0 then active else active ++ [i] in
  c ← arr_get cnt bin;
  cnt' ← arr_set cnt bin (int_of (c + 1));
  row ← arr_get cntT (PType p);
  ct ← arr_get row bin;
  row' ← arr_set row bin (int_of (ct + 1));
  cntT' ← arr_set cntT (PType p) row';
  Some (active, cnt', cntT').

(** [void rebuild_activelist(void)] *)
Definition rebuild_activelist (S : state) : option state :=
  let zeros := replicate (Z.to_nat TIMEBINS) 0 in
  '(active, cnt, cntT) ←
    for_loop (length (P S)) 0
      (fun i acc => p ← arr_get (P S) i; count_particle (TimeBinActive S) i p acc)
      ([], zeros, replicate 6 zeros);
  Some (set_ActiveParticle (set_counts S cnt cntT) active).

(** The four [atomic_fetch_and_add] calls that move a particle of type
    [type] from bin [binold] to bin [bin]; [pa] is the loop iteration
    that performs them. *)
Definition migrate_counts (pa type binold bin : Z) (S : state) : option state :=
  c ← arr_get (TimeBinCount S) binold;
  cnt1 ← arr_set (TimeBinCount S) binold (int_of (c + -1));
  c ← arr_get cnt1 bin;
  cnt2 ← arr_set cnt1 bin (int_of (c + 1));
  row ← arr_get (TimeBinCountType S) type;
  c ← arr_get row binold;
  row1 ← arr_set row binold (int_of (c + -1));
  c ← arr_get row1 bin;
  row2 ← arr_set row1 bin (int_of (c + 1));
  cntT ← arr_set (TimeBinCountType S) type row2;
  let S := set_counts S cnt2 cntT in
  let S := log_write S (mkWrite pa (SV_TimeBinCount binold) AtomicFetchAndAdd) in
  let S := log_write S (mkWrite pa (SV_TimeBinCount bin) AtomicFetchAndAdd) in
  let S := log_write S (mkWrite pa (SV_TimeBinCountType type binold) AtomicFetchAndAdd) in
  let S := log_write S (mkWrite pa (SV_TimeBinCountType type bin) AtomicFetchAndAdd) in
  Some S.

(** ** Timestep selector *)

(** [double get_timestep_dloga(const int p)] *)
Definition get_timestep_dloga (S : state) (p : Z) : option Q :=
  pp ← arr_get (P S) p;
  let A := All S in
  let '(g0, g1, g2) := GravAccel pp in
  let '(m0, m1, m2) := GravPM pp in
  let '(h0, h1, h2) := HydroAccel pp in
  let ax := (cf_a2inv A * g0 + cf_a2inv A * m0)%Q in
  let ay := (cf_a2inv A * g1 + cf_a2inv A * m1)%Q in
  let az := (cf_a2inv A * g2 + cf_a2inv A * m2)%Q in
  let fac2 := (1 / pow (Time A) (3 * GAMMA - 2))%Q in
  let ax := if PType pp =? 0 then (ax + fac2 * h0)%Q else ax in
  let ay := if PType pp =? 0 then (ay + fac2 * h1)%Q else ay in
  let az := if PType pp =? 0 then (az + fac2 * h2)%Q else az in
  let ac := sqrt (ax * ax + ay * ay + az * az)%Q in
  let ac := if Qeq_bool ac 0 then (1 # 10 ^ 30)%Q else ac in
  soft ← arr_get (SofteningTable A) (PType pp);
  let dt := sqrt (2 * ErrTolIntAccuracy A * cf_a A * soft / ac)%Q in
  let dt :=
    if ADAPTIVE_GRAVSOFT_FORGAS && (PType pp =? 0)
    then sqrt (2 * ErrTolIntAccuracy A * cf_a A * Hsml pp / (28 # 10) / ac)%Q
    else dt in
  let dt :=
    if PType pp =? 0 then
      let fac3 := pow (Time A) (3 * (1 - GAMMA) / 2)%Q in
      let dt_courant :=
        (2 * CourantFac A * Time A * Hsml pp / (fac3 * MaxSignalVel pp))%Q in
      if Qltb dt_courant dt then dt_courant else dt
    else dt in
  let dt :=
    if BLACK_HOLES && (PType pp =? 5) then
      let dt :=
        if Qltb 0 (BH_Mdot pp) && Qltb 0 (BH_Mass pp) then
          let dt_accr := ((1 # 4) * BH_Mass pp / BH_Mdot pp)%Q in
          if Qltb dt_accr dt then dt_accr else dt
        else dt in
      if BH_TimeBinLimit pp >? 0 then
        let dt_limiter :=
          (get_dloga_for_bin (BH_TimeBinLimit pp) / cf_hubble A)%Q in
        if Qltb dt_limiter dt then dt_limiter else dt
      else dt
    else dt in
  Some (dt * cf_hubble A)%Q.

(** [static unsigned int get_timestep_ti(const int p, const unsigned int
    dti_max)].  The local [dti] is an [int]; it is compared with
    [dti_max] as an [unsigned int]. *)
Definition get_timestep_ti (S : state) (p : Z) (dti_max : Z) : option Z :=
  if dti_max =? 0 then Some 0
  else if TreeGravOn (All S) =? 0 then Some dti_max
  else
    dloga ← get_timestep_dloga S p;
    let dloga :=
      if Qltb dloga (MinSizeTimestep (All S))
      then MinSizeTimestep (All S) else dloga in
    let dti := int_of (dti_from_dloga dloga) in
    let dti := if uint_of dti >? dti_max then int_of dti_max else dti in
    Some (uint_of dti).

(** ** Kick engine *)

(** What [do_the_short_range_kick] does to particle [i]. *)
Definition kick_particle (A : global_data) (tistart tiend : Z) (p : particle)
  : particle :=
  let Fgravkick := get_gravkick_factor tistart tiend in
  let vel := vec_add_scaled (Vel p) (GravAccel p) Fgravkick in
  if PType p =? 0 then
    let Fhydrokick := get_hydrokick_factor tistart tiend in
    let dt_entr := dloga_from_dti (uint_of (tiend - tistart)) in
    let vel := vec_add_scaled vel (HydroAccel p) Fhydrokick in
    let velfac := sqrt (cf_a3inv A) in
    let vv := sqrt (vec_norm2 vel) in
    let vel :=
      if Qltb (MaxGasVel A * velfac) vv
      then vec_scale vel (MaxGasVel A * velfac / vv)
      else vel in
    let entropy :=
      if Qltb (DtEntropy p * dt_entr) (- (1 # 2) * Entropy p)
      then (Entropy p * (1 # 2))%Q
      else (Entropy p + DtEntropy p * dt_entr)%Q in
    let minentropy :=
      (MinEgySpec A * GAMMA_MINUS1
       / pow (EOMDensity p * cf_a3inv A) GAMMA_MINUS1)%Q in
    let floor := Qnonzero (MinEgySpec A) && Qltb entropy minentropy in
    let dtentropy := if floor then 0%Q else DtEntropy p in
    let entropy := if floor then minentropy else entropy in
    let dt_entr_next := (get_dloga_for_bin (TimeBin p) / 2)%Q in
    let dtentropy :=
      if Qltb (dtentropy * dt_entr_next) (- (1 # 2) * entropy)
      then (- (1 # 2) * entropy / dt_entr_next)%Q
      else dtentropy in
    set_gas p vel entropy dtentropy
  else set_Vel p vel.

(** [void do_the_short_range_kick(int i, unsigned int tistart,
    unsigned int tiend)] *)
Definition do_the_short_range_kick (i tistart tiend : Z) (S : state)
  : option state :=
  p ← arr_get (P S) i;
  ps ← arr_set (P S) i (kick_particle (All S) tistart tiend p);
  Some (log_kick (set_P S ps) (ShortRangeKick i tistart tiend)).

(** [void do_the_long_range_kick(unsigned int tistart, unsigned int
    tiend)] *)
Definition do_the_long_range_kick (tistart tiend : Z) (S : state) : state :=
  let Fgravkick := get_gravkick_factor tistart tiend in
  log_kick
    (set_P S ((fun p => set_Vel p (vec_add_scaled (Vel p) (GravPM p) Fgravkick))
                <$> P S))
    (LongRangeKick tistart tiend).

(** [unsigned int get_short_kick_time(int i)] *)
Definition get_short_kick_time (S : state) (i : Z) : option Z :=
  p ← arr_get (P S) i;
  let bin := TimeBin p in
  let dti := uint_of (dti_of_bin bin) in
  let tiend := kick_ti_u (Ti_begstep p) dti in
  Some tiend.


(** The [while(TimeBinActive[bin] == 0 && bin > binold) bin--;] loop of
    [advance_and_find_timesteps]; [n] bounds the number of iterations
    (see [upward_guard_total]). *)
Fixpoint upward_guard (n : nat) (act : list Z) (binold bin : Z) : option Z :=
  a ← arr_get act bin;
  if (a =? 0) && (bin >? binold) then
    match n with
    | O => None
    | S n' => upward_guard n' act binold (bin - 1)
    end
  else Some bin.

(** The first parallel loop of [advance_and_find_timesteps], run when
    [All.ForceEqualTimesteps] is set: the smallest step of the active
    particles ([ti_min], an [int]). *)
Definition equalize_timesteps (new_PM_Ti_step : Z) (S : state)
  : option (state * Z) :=
  i0 ← arr_get (ActiveParticle S) 0;
  t0 ← get_timestep_ti S i0 (uint_of new_PM_Ti_step);
  for_loop (length (ActiveParticle S)) 0
    (fun pa '(S1, ti_min) =>
       i ← arr_get (ActiveParticle S1) pa;
       t ← get_timestep_ti S1 i (uint_of new_PM_Ti_step);
       let dti := int_of t in
       if dti <? ti_min
       then Some (log_write S1 (mkWrite pa SV_ti_min PlainStore), dti)
       else Some (S1, ti_min))
    (S, int_of t0).

(** The upward movement guard of [advance_and_find_timesteps]: the
    candidate bin [bin] of the rounded step [dti] is walked down to an
    active bin when it exceeds [binold]; the result is the new bin and
    the new step. *)
Definition guarded_bin (act : list Z) (binold bin dti : Z) : option (Z * Z) :=
  if bin >? binold then
    (* timestep wants to increase *)
    bin ← upward_guard (Z.to_nat (bin - binold)) act binold bin;
    Some (bin, dti_of_bin bin)
  else Some (bin, dti).

(** The move of particle [i] (with base data [p]) between time bins in
    [advance_and_find_timesteps], done by loop iteration [pa]. *)
Definition move_to_bin (pa i : Z) (p : particle) (bin : Z) (S : state)
  : option state :=
  let binold := TimeBin p in
  if bin =? binold then Some S
  else
    S ← migrate_counts pa (PType p) binold bin S;
    ps ← arr_set (P S) i (set_TimeBin p bin);
    Some (set_P S ps).

(** The kick interval [(tistart, tiend)] of a particle whose step began
    at [begstep], had bin [binold] and gets the new step [dti]. *)
Definition kick_interval (do_half_kick begstep binold dti : Z) : Z * Z :=
  let dti_old := uint_of (dti_of_bin binold) in
  (* midpoint of old step *)
  let tistart := kick_ti_u begstep dti_old in
  (* midpoint of new step, or its start when do_half_kick is set *)
  let tiend := kick_ti_u (uint_of (begstep + dti_old)) dti in
  let tiend :=
    if do_half_kick =? 0 then tiend else uint_of (begstep + dti_old) in
  (tistart, tiend).

(** The body of the second parallel loop of
    [advance_and_find_timesteps], for iteration [pa]; the loop state is
    the program state and the local [badstepsizecount]. *)
Definition advance_particle (do_half_kick new_PM_Ti_step ti_min_glob : Z)
    (pa : Z) (st : state * Z) : option (state * Z) :=
  let S := st.1 in
  let badstepsizecount := st.2 in
  i ← arr_get (ActiveParticle S) pa;
  dti ← (if ForceEqualTimesteps (All S) =? 0
         then int_of <$> get_timestep_ti S i (uint_of new_PM_Ti_step)
         else Some ti_min_glob);
  (* make it a power 2 subdivision *)
  let dti := int_of (round_down_power_of_two dti) in
  let bin := get_timestep_bin (uint_of dti) in
  let bad := bin <? 1 in
  let S :=
    if bad then log_write S (mkWrite pa SV_badstepsizecount PlainStore)
    else S in
  let badstepsizecount :=
    if bad then int_of (badstepsizecount + 1) else badstepsizecount in
  p ← arr_get (P S) i;
  let binold := TimeBin p in
  r ← guarded_bin (TimeBinActive S) binold bin dti;
  let bin := r.1 in
  let dti := r.2 in
  S ← move_to_bin pa i p bin S;
  p ← arr_get (P S) i;
  let dti_old := uint_of (dti_of_bin binold) in
  let ti := kick_interval do_half_kick (Ti_begstep p) binold dti in
  ps ← arr_set (P S) i (set_Ti_begstep p (uint_of (Ti_begstep p + dti_old)));
  S ← do_the_short_range_kick i ti.1 ti.2 (set_P S ps);
  Some (S, badstepsizecount).

(** [void advance_and_find_timesteps(int do_half_kick)] on one rank (an
    [MPI_Allreduce] returns its argument) and with [All.MakeGlassFile]
    off.  [long_range_ti] is the value of [get_long_range_timestep_ti()].
    The result carries [badstepsizecount_global]; when it is not zero
    the run ends in [endrun] before the long-range kick. *)
Definition advance_and_find_timesteps (do_half_kick long_range_ti : Z)
    (S : state) : option (state * Z) :=
  let new_PM_Ti_step := int_of (PM_Ti_step S) in
  let new_PM_Ti_step :=
    if is_PM_timestep S (uint_of (Ti_Current (All S)))
    then int_of long_range_ti else new_PM_Ti_step in
  r ← (if ForceEqualTimesteps (All S) =? 0 then Some (S, TIMEBASE)
       else equalize_timesteps new_PM_Ti_step S);
  let S := r.1 in
  let ti_min_glob := r.2 in
  r ← for_loop (length (ActiveParticle S)) 0
        (advance_particle do_half_kick new_PM_Ti_step ti_min_glob) (S, 0);
  let S := r.1 in
  let badstepsizecount := r.2 in
  if negb (badstepsizecount =? 0) then Some (S, badstepsizecount)
  else if is_PM_timestep S (uint_of (Ti_Current (All S))) then
    let tistart := kick_ti_u (PM_Ti_start S) (PM_Ti_step S) in
    let tiend :=
      kick_ti_u (uint_of (PM_Ti_start S + PM_Ti_step S)) new_PM_Ti_step in
    let tiend :=
      if do_half_kick =? 0 then tiend
      else uint_of (PM_Ti_start S + PM_Ti_step S) in
    let S := do_the_long_range_kick tistart tiend S in
    Some (set_PM_Ti S (uint_of new_PM_Ti_step)
            (uint_of (PM_Ti_start S + PM_Ti_step S)), 0)
  else Some (S, 0).

(** ** Synchronizer *)

(** [find_next_kick] up to the [MPI_Allreduce]: the value of the local
    [int ti_next_kick] that the rank contributes to the reduction. *)
Definition find_next_kick_local (S : state) (Ti_Current : Z) : option Z :=
  let ti_next_kick := TIMEBASE in
  c0 ← arr_get (TimeBinCount S) 0;
  (* This repopulates all timebins on the first timestep *)
  let ti_next_kick := if c0 =? 0 then ti_next_kick else int_of Ti_Current in
  (* Extract large (snapshot number) part of Ti_Current *)
  let snap := int_of (Z.land Ti_Current (uint_of (Z.lnot (TIMEBASE - 1)))) in
  (* Zero all upper bits of Ti_Current *)
  let Ti_Current := Z.land Ti_Current (uint_of (TIMEBASE - 1)) in
  ti_next_kick ←
    for_loop (Z.to_nat (TIMEBINS - 1)) 1
      (fun n ti_next_kick =>
         c ← arr_get (TimeBinCount S) n;
         if c =? 0 then Some ti_next_kick
         else
           let dt_bin := uint_of (shl1 n) in
           let ti_next_for_bin :=
             uint_of (uint_of (Ti_Current / dt_bin * dt_bin) + dt_bin) in
           if ti_next_for_bin <? uint_of ti_next_kick
           then Some (int_of ti_next_for_bin)
           else Some ti_next_kick)
      ti_next_kick;
  Some (int_of (ti_next_kick + snap)).

(** [unsigned int find_next_kick(unsigned int Ti_Current)] on one rank. *)
Definition find_next_kick (S : state) (Ti_Current : Z) : option Z :=
  uint_of <$> find_next_kick_local S Ti_Current.

(** ** The properties of the design document, as predicates *)

(** Bin accounting: [Σ_b TimeBinCount[b] == NumPart] and
    [Σ_type TimeBinCountType[type][b] == TimeBinCount[b]] for every b. *)
Definition sum_counts (l : list Z) : Z := foldr Z.add 0 l.

Definition column_sum (m : list (list Z)) (b : Z) : Z :=
  sum_counts ((fun row => default 0 (arr_get row b)) <$> m).

Definition counts_agree (n : Z) (cnt : list Z) (cntT : list (list Z)) : Prop :=
  sum_counts cnt = n /\
  forall b, 0 <= b < TIMEBINS -> Some (column_sum cntT b) = arr_get cnt b.

Definition bin_accounting (S : state) : Prop :=
  counts_agree (NumPart S) (TimeBinCount S) (TimeBinCountType S).

(** The registry arrays have their declared sizes,
    [TimeBinCount[TIMEBINS]], [TimeBinCountType[6][TIMEBINS]] and
    [TimeBinActive[TIMEBINS]]. *)
Definition counts_shape (cnt : list Z) (cntT : list (list Z)) : Prop :=
  Z.of_nat (length cnt) = TIMEBINS /\
  length cntT = 6%nat /\
  Forall (fun row => Z.of_nat (length row) = TIMEBINS) cntT.

Definition registry_shape (S : state) : Prop :=
  counts_shape (TimeBinCount S) (TimeBinCountType S) /\
  Z.of_nat (length (TimeBinActive S)) = TIMEBINS.

(** Every counter lies in [[lo, hi]]. *)
Definition counters_bounded (lo hi : Z) (cnt : list Z) (cntT : list (list Z))
  : Prop :=
  Forall (fun c => lo <= c <= hi) cnt /\
  Forall (Forall (fun c => lo <= c <= hi)) cntT.


(** Every particle has a bin of the registry and one of the six types. *)
Definition particles_in_range (S : state) : Prop :=
  Forall (fun p => 0 <= TimeBin p < TIMEBINS /\ 0 <= PType p < 6) (P S).

(** After rounding, the step is zero or a power of two that fits an
    [int]; this is what [round_down_power_of_two] is for. *)
Definition rounds_to_power_of_two : Prop :=
  forall d, INT_MIN <= d <= INT_MAX ->
    int_of (round_down_power_of_two d) = 0 \/
    exists k, 0 <= k <= 30 /\ int_of (round_down_power_of_two d) = 2 ^ k.



End Model.

(** ** The entropy update in binary64 *)


(** ** The parallel loops and their shared variables *)

(** What the design document asks of the parallel loops: every write
    to a shared variable is an atomic fetch-and-add on [TimeBinCount] or
    [TimeBinCountType]. *)
Definition only_atomic_bin_counts (log : list shared_write) : Prop :=
  Forall (fun w =>
            sw_access w = AtomicFetchAndAdd /\
            match sw_var w with
            | SV_TimeBinCount _ | SV_TimeBinCountType _ _ => True
            | SV_ti_min | SV_badstepsizecount => False
            end) log.

(** The line [if(dti < ti_min) ti_min = dti;] of the equalisation loop
    as a worker runs it: a load of the shared [ti_min] for the
    comparison, then a plain store when the comparison held.  A worker
    is the step [dti] of its particle, the value it has loaded, if any,
    and whether it is done. *)
Record worker := mkWorker {
  w_dti : Z;
  w_loaded : option Z;
  w_done : bool;
}.

Definition worker_step (ti_min : Z) (w : worker) : Z * worker :=
  match w_loaded w with
  | None => (ti_min, mkWorker (w_dti w) (Some ti_min) false)
  | Some seen =>
      if w_done w then (ti_min, w)
      else (if w_dti w <? seen then w_dti w else ti_min,
            mkWorker (w_dti w) (Some seen) true)
  end.

(** A schedule names the worker that moves next. *)
Fixpoint run_schedule (sched : list nat) (ti_min : Z) (ws : list worker)
  : Z * list worker :=
  match sched with
  | [] => (ti_min, ws)
  | k :: sched' =>
      match ws !! k with
      | None => run_schedule sched' ti_min ws
      | Some w =>
          let r := worker_step ti_min w in
          run_schedule sched' r.1 (<[k := r.2]> ws)
      end
  end.

(** ** A reference environment and test states

    The theorems below hold for every [TimestepEnv].  Concrete runs need
    one; [ref_env] follows the design document where it speaks and uses
    exact stand-ins where it does not. *)

(** Modelled from the spec: [sqrt] of libm is not part of [timestep.c].
    This stand-in is exact on squares of rationals, which is all the test
    states below feed it. *)
Definition Qsqrt (q : Q) : Q :=
  let r := Qred q in
  if Qnum r <? 0 then 0%Q else (Z.sqrt (Qnum r) # Pos.sqrt (Qden r))%Q.

(** Modelled from the spec: [pow] of libm is not part of [timestep.c].
    This stand-in is exact when the exponent is an integer or the base
    is one, which is all the test states below feed it. *)
Definition Qpow (x y : Q) : Q :=
  let e := Qred y in
  if Qeq_bool x 1 then 1%Q
  else if (Qden e =? 1)%positive then Qpower x (Qnum e) else 1%Q.

(** Modelled from the spec: [dloga_from_dti] of [timefac.c] is missing;
    ticks map to the scale factor by [dloga = dloga_total * dti / TIMEBASE],
    here with [dloga_total = 1] and [TIMEBASE = 2^29]. *)
Definition ref_dloga_from_dti (dti : Z) : Q := (inject_Z dti / inject_Z (2 ^ 29))%Q.

(** Modelled from the spec: [dti_from_dloga] of [timefac.c] is missing;
    it is the inverse of [dloga_from_dti], truncated to an integer. *)
Definition ref_dti_from_dloga (dloga : Q) : Z :=
  (Qnum dloga * 2 ^ 29) ÷ Z.pos (Qden dloga).

(** Modelled from the spec: [round_down_power_of_two] is missing; the
    rounding is [dti <- 2^floor(log2(dti))], and a step of no tick stays
    one of no tick. *)
Definition ref_round_down_power_of_two (dti : Z) : Z :=
  if dti <=? 0 then 0 else 2 ^ Z.log2 dti.

(** Modelled from the spec: the constants of [allvars.h] ([TIMEBASE =
    2^T] with [T] typically 29) and the routines of [timefac.c] are
    missing; [get_dloga_for_bin(b)] is [dloga_from_dti(2^b)].  The two
    kick factors are integrals over the tick interval that no property
    below depends on; the interval length stands in for them. *)
Definition ref_env : TimestepEnv := {|
  TIMEBINS := 29;
  TIMEBASE := 2 ^ 29;
  GAMMA := (5 # 3)%Q;
  GAMMA_MINUS1 := (2 # 3)%Q;
  ADAPTIVE_GRAVSOFT_FORGAS := false;
  BLACK_HOLES := false;
  sqrt := Qsqrt;
  pow := Qpow;
  dti_from_dloga := ref_dti_from_dloga;
  dloga_from_dti := ref_dloga_from_dti;
  get_dloga_for_bin := fun b => ref_dloga_from_dti (2 ^ b);
  get_gravkick_factor := fun t0 t1 => ref_dloga_from_dti (t1 - t0);
  get_hydrokick_factor := fun t0 t1 => ref_dloga_from_dti (t1 - t0);
  round_down_power_of_two := ref_round_down_power_of_two;
|}.

Definition zero3 : vec3 := (0, 0, 0)%Q.

(** [a = 1], [H = 1], accuracy [1/2], softening [1] for every type: the
    gravity criterion is [dt = sqrt(1 / ac)]. *)
Definition ex_All (force_equal ti_current : Z) : global_data :=
  mkAll 1 force_equal 0 (1 # 2) (15 # 100) (replicate 6 1%Q)
    1 1 1 1 1 300000 0 ti_current.

(** A collisionless particle of type 1 with tree acceleration
    [(acc, 0, 0)]. *)
Definition ex_halo (bin begstep : Z) (acc : Q) : particle :=
  mkParticle 1 bin begstep zero3 (acc, 0, 0)%Q zero3 1 zero3 0 0 0 0 0 0 0.

(** A gas particle at rest with no forces on it. *)
Definition ex_gas (bin begstep : Z) (entropy dtentropy : Q) : particle :=
  mkParticle 0 bin begstep zero3 zero3 zero3 1 zero3 entropy dtentropy 1 1
    0 0 0.

(** A state at tick [ti_current] with PM step [2^10] from tick 0 and
    nothing counted yet. *)
Definition ex_state (force_equal ti_current : Z) (ps : list particle)
    (active : list Z) : state :=
  mkState (ex_All force_equal ti_current) ps active
    (replicate 29 0) (replicate 6 (replicate 29 0)) (replicate 29 0)
    (2 ^ 10) 0 [] [].

(** The state the driver hands to the kick engine at tick
    [ti_current]: active bins marked, then the active list rebuilt. *)
Definition ex_synced (force_equal ti_current : Z) (ps : list particle)
  : option state :=
  r ← update_active_timebins (E := ref_env) ti_current
         (ex_state force_equal ti_current ps []);
  rebuild_activelist (E := ref_env) r.1.

(** The upward-guard scenario of the design document: at tick 16 (bins
    0 to 4 active) a particle in bin 3, whose step began at tick 8,
    asks for a step of [2^6] ticks. *)
Definition ex_scenario : state :=
  default (ex_state 0 16 [] [])
    (ex_synced 0 16 [ex_halo 3 8 (inject_Z (2 ^ 46))]).

(** ** Further routines of [timestep.c] *)

Definition set_Ti_Current (A : global_data) (t : Z) : global_data :=
  mkAll (TreeGravOn A) (ForceEqualTimesteps A) (MinSizeTimestep A)
    (ErrTolIntAccuracy A) (CourantFac A) (SofteningTable A) (Time A) (cf_a A)
    (cf_a2inv A) (cf_a3inv A) (cf_hubble A) (MaxGasVel A) (MinEgySpec A) t.

Definition set_All (S : state) (A : global_data) : state :=
  mkState A (P S) (ActiveParticle S) (TimeBinCount S) (TimeBinCountType S)
    (TimeBinActive S) (PM_Ti_step S) (PM_Ti_start S) (kicks S)
    (shared_writes S).

(** Whether particle [i] exists and sits in a bin that [act] marks
    active. *)
Definition in_active_bin (act : list Z) (ps : list particle) (i : Z) : bool :=
  match arr_get ps i with
  | Some p =>
      match arr_get act (TimeBin p) with
      | Some a => negb (a =? 0)
      | None => false
      end
  | None => false
  end.

Section FurtherModel.
Context {E : TimestepEnv}.

(** [void init_timebins()] *)
Definition init_timebins (S : state) : option state :=
  let S := set_PM_Ti S 0 0 in
  r ← update_active_timebins 0 S;
  let S := r.1 in
  Some (set_All S (set_Ti_Current (All S) 0)).

End FurtherModel.

(** Two particles with a step ratio of four, as the driver has them at
    tick 8: one in bin 5 since tick 0, one in bin 3 since tick 8. *)
Definition ex_two_bins : state :=
  default (ex_state 0 8 [] [])
    (ex_synced 0 8 [ex_halo 5 0 1; ex_halo 3 8 1]).







(** ** The bin counters as a histogram of the particles *)

(** The number of particles of [ps] for which [f] holds. *)
Definition count_if (f : particle -> bool) (ps : list particle) : Z :=
  Z.of_nat (length (List.filter f ps)).

Definition in_bin (b : Z) (p : particle) : bool := TimeBin p =? b.

Definition in_type_bin (t b : Z) (p : particle) : bool :=
  (PType p =? t) && (TimeBin p =? b).

(** The bin of [p] is marked in the table [act]. *)
Definition bin_is_active (act : list Z) (p : particle) : bool :=
  match arr_get act (TimeBin p) with
  | Some a => negb (a =? 0)
  | None => false
  end.

Section Histogram.
Context {E : TimestepEnv}.

(** [TimeBinCount[b]] is the number of particles in bin [b], and
    [TimeBinCountType[t][b]] the number of those of type [t]. *)
Definition counts_particles (ps : list particle) (cnt : list Z)
    (cntT : list (list Z)) : Prop :=
  (forall b, 0 <= b < TIMEBINS ->
     arr_get cnt b = Some (count_if (in_bin b) ps)) /\
  (forall t b, 0 <= t < 6 -> 0 <= b < TIMEBINS ->
     exists row, arr_get cntT t = Some row /\
       arr_get row b = Some (count_if (in_type_bin t b) ps)).

Definition registry_counts_particles (S : state) : Prop :=
  counts_particles (P S) (TimeBinCount S) (TimeBinCountType S).

End Histogram.


(** * Properties *)

(** ** Integer lemmas *)

Lemma int_of_small z : - 2 ^ 31 <= z < 2 ^ 31 -> int_of z = z.
Proof. intros H. unfold int_of. rewrite Z.mod_small; lia. Qed.

Lemma uint_of_small z : 0 <= z < 2 ^ 32 -> uint_of z = z.
Proof. intros H. unfold uint_of. apply Z.mod_small; lia. Qed.

Lemma uint_of_int_of z : uint_of (int_of z) = uint_of z.
Proof.
  unfold uint_of, int_of.
  rewrite Zminus_mod, Zmod_mod, <- Zminus_mod.
  replace (z + 2 ^ 31 - 2 ^ 31) with z by lia. reflexivity.
Qed.

Lemma int_of_uint_of z : int_of (uint_of z) = int_of z.
Proof.
  unfold uint_of, int_of. f_equal.
  rewrite Zplus_mod_idemp_l. reflexivity.
Qed.

Lemma uint_of_range z : 0 <= uint_of z < 2 ^ 32.
Proof. unfold uint_of. apply Z.mod_pos_bound. lia. Qed.

Lemma int_of_range z : - 2 ^ 31 <= int_of z < 2 ^ 31.
Proof.
  unfold int_of. pose proof (Z.mod_pos_bound (z + 2 ^ 31) (2 ^ 32)). lia.
Qed.

Lemma uint_of_add_l a b : uint_of (uint_of a + b) = uint_of (a + b).
Proof. unfold uint_of. apply Zplus_mod_idemp_l. Qed.

Lemma uint_of_add_int_l a b : uint_of (int_of a + b) = uint_of (a + b).
Proof.
  rewrite <- uint_of_add_l, uint_of_int_of, uint_of_add_l. reflexivity.
Qed.

Lemma pow2_bound b : 0 <= b <= 30 -> 1 <= 2 ^ b < 2 ^ 31.
Proof.
  intros H. split.
  - pose proof (Z.pow_pos_nonneg 2 b). lia.
  - apply Z.pow_lt_mono_r; lia.
Qed.

Lemma pow2_half b : 1 <= b -> 2 ^ b / 2 = 2 ^ (b - 1).
Proof.
  intros H. replace (2 ^ b) with (2 ^ (b - 1) * 2).
  - apply Z.div_mul. lia.
  - rewrite Z.mul_comm, <- Z.pow_succ_r by lia. f_equal. lia.
Qed.

Lemma shl1_pow2 b : 0 <= b <= 30 -> shl1 b = 2 ^ b.
Proof.
  intros H. unfold shl1. rewrite Z.shiftl_1_l.
  apply int_of_small. pose proof (pow2_bound b H). lia.
Qed.

Lemma dti_of_bin_pos b : 1 <= b <= 30 -> dti_of_bin b = 2 ^ b.
Proof.
  intros H. unfold dti_of_bin.
  destruct (Z.eqb_spec b 0); [lia|]. apply shl1_pow2. lia.
Qed.

Lemma dti_of_bin_range b : 0 <= b <= 30 -> 0 <= dti_of_bin b < 2 ^ 31.
Proof.
  intros H. destruct (Z.eq_dec b 0) as [->|Hb]; [cbn; lia|].
  rewrite dti_of_bin_pos by lia. pose proof (pow2_bound b H). lia.
Qed.

(** The step of bin 0 is no tick, and half of it is half of
    [2^0 = 1]: both are zero. *)
Lemma dti_of_bin_half b : 0 <= b <= 30 -> dti_of_bin b / 2 = 2 ^ b / 2.
Proof.
  intros H. destruct (Z.eq_dec b 0) as [->|Hb]; [reflexivity|].
  rewrite dti_of_bin_pos by lia. reflexivity.
Qed.

(** With a step that fits an [int], the kick tick is the midpoint
    modulo [2^32]. *)
Lemma kick_ti_u_eq start step :
  0 <= step < 2 ^ 31 -> kick_ti_u start step = uint_of (start + step / 2).
Proof.
  intros H. unfold kick_ti_u, get_kick_ti.
  rewrite uint_of_int_of, uint_of_add_int_l, (int_of_small step) by lia.
  rewrite Z.quot_div_nonneg by lia. reflexivity.
Qed.

(** The shift loop has ended once [dti] is exhausted: more iterations
    do not change the result. *)
Lemma shift_loop_enough n m dti bin :
  0 <= dti < 2 ^ Z.of_nat n -> (n <= m)%nat ->
  shift_loop m dti bin = shift_loop n dti bin.
Proof.
  revert m dti bin. induction n as [|n IH]; intros m dti bin Hd Hm.
  - assert (dti = 0) by (simpl in Hd; lia). subst.
    destruct m; reflexivity.
  - destruct m as [|m]; [lia|]. simpl.
    destruct (Z.eqb_spec dti 0); [reflexivity|].
    apply IH; [|lia].
    rewrite Z.shiftr_div_pow2 by lia. change (2 ^ 1) with 2.
    rewrite Nat2Z.inj_succ, Z.pow_succ_r in Hd by lia.
    split; [apply Z.div_pos; lia|].
    apply Z.div_lt_upper_bound; lia.
Qed.

Lemma shift_loop_pow2 n b bin :
  0 <= b < Z.of_nat n -> shift_loop n (2 ^ b) bin = bin + b + 1.
Proof.
  revert b bin. induction n as [|n IH]; intros b bin Hb; [lia|].
  simpl. pose proof (Z.pow_pos_nonneg 2 b).
  destruct (Z.eqb_spec (2 ^ b) 0); [lia|].
  destruct (Z.eq_dec b 0) as [->|Hne].
  - change (Z.shiftr (2 ^ 0) 1) with 0. destruct n; simpl; lia.
  - rewrite Z.shiftr_div_pow2 by lia. change (2 ^ 1) with 2.
    rewrite pow2_half by lia.
    rewrite IH by lia. lia.
Qed.

Lemma get_timestep_bin_of_pow2 b :
  1 <= b <= 31 -> get_timestep_bin (2 ^ b) = b.
Proof.
  intros Hb. unfold get_timestep_bin.
  assert (2 <= 2 ^ b).
  { change 2 with (2 ^ 1) at 1. apply Z.pow_le_mono_r; lia. }
  destruct (Z.eqb_spec (2 ^ b) 0); [lia|].
  destruct (Z.eqb_spec (2 ^ b) 1); [lia|].
  rewrite shift_loop_pow2 by lia. lia.
Qed.

(** ** Array lemmas *)

Lemma arr_get_Some {A} (a : list A) i x :
  arr_get a i = Some x -> 0 <= i < Z.of_nat (length a).
Proof.
  unfold arr_get. destruct (Z.ltb_spec i 0) as [|Hi]; [discriminate|].
  intros Hl%lookup_lt_Some. lia.
Qed.

Lemma arr_get_is_Some {A} (a : list A) i :
  0 <= i < Z.of_nat (length a) -> is_Some (arr_get a i).
Proof.
  intros H. unfold arr_get. destruct (Z.ltb_spec i 0); [lia|].
  apply lookup_lt_is_Some. lia.
Qed.

Lemma arr_set_Some {A} (a : list A) i x :
  0 <= i < Z.of_nat (length a) -> arr_set a i x = Some (<[Z.to_nat i := x]> a).
Proof.
  intros H. unfold arr_set.
  destruct (Z.leb_spec 0 i); [|lia].
  destruct (Z.ltb_spec i (Z.of_nat (length a))); [|lia]. reflexivity.
Qed.

Lemma arr_set_inv {A} (a a' : list A) i x :
  arr_set a i x = Some a' ->
  0 <= i < Z.of_nat (length a) /\ a' = <[Z.to_nat i := x]> a.
Proof.
  unfold arr_set.
  destruct (Z.leb_spec 0 i); [|discriminate].
  destruct (Z.ltb_spec i (Z.of_nat (length a))); [|discriminate].
  simpl. intros [= <-]. split; [lia|reflexivity].
Qed.

Lemma arr_get_set_eq {A} (a a' : list A) i x :
  arr_set a i x = Some a' -> arr_get a' i = Some x.
Proof.
  intros [Hi ->]%arr_set_inv. unfold arr_get.
  destruct (Z.ltb_spec i 0); [lia|].
  apply list_lookup_insert_eq. lia.
Qed.

Lemma arr_get_set_ne {A} (a a' : list A) i j x :
  arr_set a i x = Some a' -> i <> j -> arr_get a' j = arr_get a j.
Proof.
  intros [Hi ->]%arr_set_inv Hne. unfold arr_get.
  destruct (Z.ltb_spec j 0); [reflexivity|].
  apply list_lookup_insert_ne. lia.
Qed.

Lemma arr_set_length {A} (a a' : list A) i x :
  arr_set a i x = Some a' -> length a' = length a.
Proof. intros [_ ->]%arr_set_inv. apply length_insert. Qed.

(** ** get_timestep_bin (C8) *)

(** C8 (as amended): [get_timestep_bin(2^b) == b] for every bin
    [1 <= b <= 31], [get_timestep_bin(0) == 0], and a step of one tick,
    [2^0], has no bin: [get_timestep_bin(1) == -1]. *)
Theorem get_timestep_bin_pow2 b :
  1 <= b <= 31 ->
  get_timestep_bin (2 ^ b) = b /\
  get_timestep_bin 0 = 0 /\
  get_timestep_bin 1 = -1.
Proof.
  intros Hb. split; [|split; reflexivity].
  apply get_timestep_bin_of_pow2, Hb.
Qed.

Lemma get_timestep_bin_pow2_witness :
  get_timestep_bin (2 ^ 5) = 5 /\
  get_timestep_bin 0 = 0 /\
  get_timestep_bin 1 = -1.
Proof. apply (get_timestep_bin_pow2 5). lia. Defined.

(** C8 as stated fails at [b = 0]: [get_timestep_bin(2^0)] is not [0]. *)
Lemma get_timestep_bin_pow2_0_fails : get_timestep_bin (2 ^ 0) <> 0.
Proof. discriminate. Qed.

Section KickTimeFacts.
Context {E : TimestepEnv}.

(** ** get_short_kick_time (C10) *)

(** C10: for a particle [i] in a bin [0 <= TimeBin <= 30] whose step
    ends within the [unsigned int] range, [get_short_kick_time(i)] is
    [get_kick_ti(Ti_begstep, 2^TimeBin)]: the midpoint [Ti_begstep +
    2^(TimeBin-1)] when [TimeBin >= 1] and [Ti_begstep] when
    [TimeBin == 0]. *)
Theorem get_short_kick_time_midpoint S i p :
  arr_get (P S) i = Some p ->
  0 <= TimeBin p <= 30 ->
  0 <= Ti_begstep p ->
  Ti_begstep p + 2 ^ TimeBin p <= UINT_MAX ->
  get_short_kick_time S i = Some (kick_ti_u (Ti_begstep p) (2 ^ TimeBin p)) /\
  (1 <= TimeBin p ->
   get_short_kick_time S i = Some (Ti_begstep p + 2 ^ (TimeBin p - 1))) /\
  (TimeBin p = 0 -> get_short_kick_time S i = Some (Ti_begstep p)).
Proof.
  intros Hp Hbin Hbeg Hend. unfold get_short_kick_time. rewrite Hp. simpl.
  pose proof (dti_of_bin_range _ Hbin) as Hd.
  pose proof (pow2_bound _ Hbin) as Hpow.
  rewrite (uint_of_small (dti_of_bin _)) by lia.
  rewrite !kick_ti_u_eq by lia.
  rewrite dti_of_bin_half by lia.
  assert (0 <= 2 ^ TimeBin p / 2 <= 2 ^ TimeBin p).
  { split; [apply Z.div_pos; lia|]. apply Z.div_le_upper_bound; lia. }
  unfold UINT_MAX in Hend.
  split; [reflexivity|]. split.
  - intros H1. rewrite pow2_half in * by lia.
    rewrite uint_of_small by lia. reflexivity.
  - intros ->. change (2 ^ 0 / 2) with 0.
    rewrite Z.add_0_r, uint_of_small; [reflexivity|].
    change (2 ^ 0) with 1 in Hend. lia.
Qed.

End KickTimeFacts.

Lemma get_short_kick_time_midpoint_witness :
  let S := ex_state 0 16 [ex_halo 3 8 1] [0] in
  get_short_kick_time S 0 = Some (kick_ti_u 8 (2 ^ 3)) /\
  (1 <= 3 -> get_short_kick_time S 0 = Some (8 + 2 ^ (3 - 1))) /\
  (3 = 0 -> get_short_kick_time S 0 = Some 8).
Proof.
  apply (get_short_kick_time_midpoint
           (ex_state 0 16 [ex_halo 3 8 1] [0]) 0 (ex_halo 3 8 1));
    [reflexivity | simpl; lia | simpl; lia | vm_compute; discriminate].
Defined.

Section SelectorFacts.
Context {E : TimestepEnv}.

(** ** get_timestep_ti (C6) *)

(** C6 (as amended): for [1 <= dti_max], [get_timestep_ti(p, dti_max)]
    returns a step [0 <= dti <= dti_max] (it returns for every particle
    of the particle array whose type has a softening), and it returns
    [dti_max] itself when [All.TreeGravOn] is off. *)
Theorem get_timestep_ti_range S p dti_max :
  1 <= dti_max <= UINT_MAX ->
  (forall dti, get_timestep_ti S p dti_max = Some dti -> 0 <= dti <= dti_max) /\
  (forall pp, arr_get (P S) p = Some pp ->
     is_Some (arr_get (SofteningTable (All S)) (PType pp)) ->
     is_Some (get_timestep_ti S p dti_max)) /\
  (TreeGravOn (All S) = 0 -> get_timestep_ti S p dti_max = Some dti_max).
Proof.
  intros Hmax. unfold UINT_MAX in Hmax. unfold get_timestep_ti.
  destruct (Z.eqb_spec dti_max 0) as [|_]; [lia|].
  destruct (Z.eqb_spec (TreeGravOn (All S)) 0) as [Hoff|Hon].
  - split; [intros dti [= <-]; lia|]. split; [eauto|reflexivity].
  - split; [|split; [|contradiction]].
    + intros dti Hr.
      destruct (get_timestep_dloga S p) as [dloga|]; [|discriminate].
      simpl in Hr. injection Hr as <-.
      match goal with |- context [uint_of (int_of ?x) >? _] =>
        generalize (int_of x); intros raw end.
      destruct (Z.gtb_spec (uint_of raw) dti_max) as [Hgt|Hle].
      * rewrite uint_of_int_of, uint_of_small; lia.
      * pose proof (uint_of_range raw). lia.
    + intros pp Hpp [soft Hsoft]. unfold get_timestep_dloga.
      rewrite Hpp. simpl.
      destruct (GravAccel pp) as [[g0 g1] g2].
      destruct (GravPM pp) as [[m0 m1] m2].
      destruct (HydroAccel pp) as [[h0 h1] h2].
      rewrite Hsoft. simpl. eauto.
Qed.

End SelectorFacts.

Lemma get_timestep_ti_range_witness :
  let S := ex_state 0 16 [ex_halo 3 8 (inject_Z (2 ^ 46))] [0] in
  (forall dti, get_timestep_ti (E := ref_env) S 0 1024 = Some dti ->
     0 <= dti <= 1024) /\
  (forall pp, arr_get (P S) 0 = Some pp ->
     is_Some (arr_get (SofteningTable (All S)) (PType pp)) ->
     is_Some (get_timestep_ti (E := ref_env) S 0 1024)) /\
  (TreeGravOn (All S) = 0 ->
   get_timestep_ti (E := ref_env) S 0 1024 = Some 1024).
Proof.
  apply (get_timestep_ti_range (E := ref_env)
           (ex_state 0 16 [ex_halo 3 8 (inject_Z (2 ^ 46))] [0]) 0 1024).
  vm_compute. split; discriminate.
Defined.

(** C6 as stated fails: a particle under a tree acceleration of [2^80]
    (with [a = H = 1], accuracy [1/2], softening [1] and no
    [MinSizeTimestep]) gets [dloga = 2^-40], which is less than one tick
    of [2^-29]: [get_timestep_ti] returns [0], below the claimed lower
    bound. *)
Lemma get_timestep_ti_zero_step :
  let S := ex_state 0 16 [ex_halo 3 8 (inject_Z (2 ^ 80))] [0] in
  get_timestep_ti (E := ref_env) S 0 1024 = Some 0 /\
  ~ (exists dti, get_timestep_ti (E := ref_env) S 0 1024 = Some dti /\
                 1 <= dti <= 1024).
Proof.
  assert (Hr : get_timestep_ti (E := ref_env)
                 (ex_state 0 16 [ex_halo 3 8 (inject_Z (2 ^ 80))] [0]) 0 1024
               = Some 0) by (vm_compute; reflexivity).
  simpl. split; [exact Hr|].
  intros (dti & Hd & Hlo & _). rewrite Hr in Hd. injection Hd as <-. lia.
Qed.

(** ** find_next_kick (C2) *)

(** C2: [find_next_kick] at a tick with a snapshot bit set.  One particle
    sits in bin 0 at tick [2^29 + 8] ([TIMEBASE = 2^29]), so
    [TimeBinCount[0] = 1] and every other bin is empty.  The candidate is
    seeded with the unmasked [Ti_Current] and the snapshot bits are added
    once more at the end: the next kick is [2^30 + 8], not the current
    tick [2^29 + 8]. *)
Theorem find_next_kick_snapshot_bits :
  exists S,
    ex_synced 0 (2 ^ 29 + 8) [ex_halo 0 (2 ^ 29 + 8) 1] = Some S /\
    arr_get (TimeBinCount S) 0 = Some 1 /\
    find_next_kick_local (E := ref_env) S (2 ^ 29 + 8) = Some (2 ^ 30 + 8) /\
    find_next_kick (E := ref_env) S (2 ^ 29 + 8) = Some (2 ^ 30 + 8) /\
    2 ^ 30 + 8 <> 2 ^ 29 + 8.
Proof.
  eexists. split; [vm_compute; reflexivity|].
  split; [reflexivity|].
  split; [vm_compute; reflexivity|].
  split; [vm_compute; reflexivity|]. lia.
Qed.

(** ** Loops *)

(** The loop rule: an invariant that every iteration re-establishes
    holds when the loop ends, and the loop does end. *)
Lemma for_loop_total {B} (I : Z -> B -> Prop) n lo body (b : B) :
  I lo b ->
  (forall k b, lo <= k < lo + Z.of_nat n -> I k b ->
     exists b', body k b = Some b' /\ I (k + 1) b') ->
  exists b', for_loop n lo body b = Some b' /\ I (lo + Z.of_nat n) b'.
Proof.
  revert lo b. induction n as [|n IH]; intros lo b H0 Hstep.
  - exists b. split; [reflexivity|]. now rewrite Z.add_0_r.
  - destruct (Hstep lo b ltac:(lia) H0) as (b1 & Hb1 & H1).
    destruct (IH (lo + 1) b1 H1) as (b' & Hb' & H').
    { intros k c Hk. apply Hstep. lia. }
    exists b'. simpl. rewrite Hb1. simpl. split; [exact Hb'|].
    now replace (lo + Z.of_nat (S n)) with (lo + 1 + Z.of_nat n) by lia.
Qed.

(** The same rule for a loop that is known to have ended. *)
Lemma for_loop_partial {B} (I : Z -> B -> Prop) n lo body (b b' : B) :
  I lo b ->
  (forall k b b', lo <= k < lo + Z.of_nat n -> I k b ->
     body k b = Some b' -> I (k + 1) b') ->
  for_loop n lo body b = Some b' -> I (lo + Z.of_nat n) b'.
Proof.
  revert lo b. induction n as [|n IH]; intros lo b H0 Hstep Hrun.
  - simpl in Hrun. injection Hrun as <-. now rewrite Z.add_0_r.
  - simpl in Hrun. destruct (body lo b) as [b1|] eqn:Hb1; [|discriminate].
    simpl in Hrun.
    replace (lo + Z.of_nat (S n)) with (lo + 1 + Z.of_nat n) by lia.
    apply (IH (lo + 1) b1); [| |exact Hrun].
    + apply (Hstep lo b b1); [lia|assumption..].
    + intros k c c' Hk. apply Hstep. lia.
Qed.

(** ** The upward movement guard (C4) *)

(** The guard loop ends within [bin - binold] iterations, on the
    highest bin in [[binold, bin]] that is active, or on [binold]. *)
Lemma upward_guard_total act binold n bin :
  binold <= bin -> bin - binold <= Z.of_nat n ->
  (forall k, binold <= k <= bin -> is_Some (arr_get act k)) ->
  exists r, upward_guard n act binold bin = Some r /\
    binold <= r <= bin /\
    (r = binold \/ exists a, arr_get act r = Some a /\ a <> 0) /\
    (forall k, r < k <= bin -> arr_get act k = Some 0).
Proof.
  revert bin. induction n as [|n IH]; intros bin Hle Hn Hact.
  - assert (bin = binold) as -> by lia.
    destruct (Hact binold ltac:(lia)) as [a Ha].
    exists binold. simpl. rewrite Ha. simpl.
    destruct (Z.gtb_spec binold binold); [lia|].
    rewrite andb_false_r. repeat split; lia.
  - destruct (Hact bin ltac:(lia)) as [a Ha].
    simpl. rewrite Ha. simpl.
    destruct (Z.eqb_spec a 0) as [->|Hne];
      destruct (Z.gtb_spec bin binold) as [Hgt|Hngt]; simpl.
    + destruct (IH (bin - 1)) as (r & Hr & Hrange & Hstop & Hskip);
        [lia | lia | intros k Hk; apply Hact; lia |].
      exists r. split; [exact Hr|]. split; [lia|]. split; [exact Hstop|].
      intros k Hk. destruct (Z.eq_dec k bin) as [->|]; [exact Ha|].
      apply Hskip. lia.
    + exists bin. repeat split; lia.
    + exists bin. split; [reflexivity|]. split; [lia|].
      split; [right; eauto|lia].
    + exists bin. repeat split; lia.
Qed.

Section GuardFacts.
Context {E : TimestepEnv}.

Lemma move_to_bin_particle pa i p bin S S' :
  arr_get (P S) i = Some p ->
  move_to_bin pa i p bin S = Some S' ->
  arr_get (P S') i = Some (set_TimeBin p bin) /\
  (forall j, j <> i -> arr_get (P S') j = arr_get (P S) j) /\
  length (P S') = length (P S) /\
  All S' = All S /\ kicks S' = kicks S /\
  TimeBinActive S' = TimeBinActive S /\
  ActiveParticle S' = ActiveParticle S /\
  PM_Ti_step S' = PM_Ti_step S /\ PM_Ti_start S' = PM_Ti_start S.
Proof.
  intros Hp. unfold move_to_bin.
  destruct (Z.eqb_spec bin (TimeBin p)) as [->|Hne].
  - intros [= <-]. replace (set_TimeBin p (TimeBin p)) with p
      by (destruct p; reflexivity).
    repeat split; auto.
  - unfold migrate_counts. intros H. simplify_option_eq.
    match goal with H : arr_set _ _ _ = Some ?ps |- _ =>
      pose proof (arr_get_set_eq _ _ _ _ H) as Heq;
      pose proof (fun j => arr_get_set_ne _ _ _ j _ H) as Hother;
      pose proof (arr_set_length _ _ _ _ H) as Hlen end.
    simpl in *. repeat split; auto.
Qed.

Lemma do_the_short_range_kick_inv i tistart tiend S S' p :
  arr_get (P S) i = Some p ->
  do_the_short_range_kick i tistart tiend S = Some S' ->
  arr_get (P S') i = Some (kick_particle (All S) tistart tiend p) /\
  (forall j, j <> i -> arr_get (P S') j = arr_get (P S) j) /\
  kicks S' = kicks S ++ [ShortRangeKick i tistart tiend] /\
  All S' = All S /\ TimeBinActive S' = TimeBinActive S /\
  ActiveParticle S' = ActiveParticle S /\
  TimeBinCount S' = TimeBinCount S /\
  TimeBinCountType S' = TimeBinCountType S /\
  PM_Ti_step S' = PM_Ti_step S /\ PM_Ti_start S' = PM_Ti_start S /\
  shared_writes S' = shared_writes S /\
  length (P S') = length (P S).
Proof.
  intros Hp. unfold do_the_short_range_kick. rewrite Hp. simpl.
  destruct (arr_set (P S) i _) as [ps|] eqn:Hset; [|discriminate].
  simpl. intros [= <-]. simpl.
  pose proof (arr_get_set_eq _ _ _ _ Hset).
  pose proof (fun j => arr_get_set_ne _ _ _ j _ Hset).
  pose proof (arr_set_length _ _ _ _ Hset).
  repeat split; auto.
Qed.

Lemma do_the_short_range_kick_total i tistart tiend S :
  is_Some (arr_get (P S) i) ->
  is_Some (do_the_short_range_kick i tistart tiend S).
Proof.
  intros [p Hp]. unfold do_the_short_range_kick. rewrite Hp. simpl.
  rewrite arr_set_Some by (eapply arr_get_Some; eauto). simpl. eauto.
Qed.

(** The kick changes neither the bin nor the step start nor the type
    of a particle. *)
Lemma kick_particle_frame A tistart tiend p :
  TimeBin (kick_particle A tistart tiend p) = TimeBin p /\
  Ti_begstep (kick_particle A tistart tiend p) = Ti_begstep p /\
  PType (kick_particle A tistart tiend p) = PType p.
Proof.
  unfold kick_particle. destruct (PType p =? 0); repeat split.
Qed.

End GuardFacts.

(** What the guard loop returns, when it returns. *)
Lemma upward_guard_inv act binold n bin r :
  upward_guard n act binold bin = Some r -> binold <= bin ->
  binold <= r <= bin /\
  (r = binold \/ exists a, arr_get act r = Some a /\ a <> 0) /\
  (forall k, r < k <= bin -> arr_get act k = Some 0).
Proof.
  revert bin. induction n as [|n IH]; intros bin Hrun Hle; simpl in Hrun;
    destruct (arr_get act bin) as [a|] eqn:Ha; try discriminate;
    simpl in Hrun;
    destruct (Z.eqb_spec a 0) as [->|Hne];
    destruct (Z.gtb_spec bin binold) as [Hgt|Hngt]; simpl in Hrun;
    try discriminate; try (injection Hrun as <-).
  - repeat split; lia.
  - split; [lia|]. split; [right; eauto|lia].
  - repeat split; lia.
  - destruct (IH (bin - 1) Hrun ltac:(lia)) as (Hrange & Hstop & Hskip).
    split; [lia|]. split; [exact Hstop|].
    intros k Hk. destruct (Z.eq_dec k bin) as [->|]; [exact Ha|].
    apply Hskip. lia.
  - repeat split; lia.
  - split; [lia|]. split; [right; eauto|lia].
  - repeat split; lia.
Qed.

Section AdvanceFacts.
Context {E : TimestepEnv}.

Lemma candidate_bin dti0 :
  (dti0 = 0 \/ exists k, 0 <= k <= 30 /\ dti0 = 2 ^ k) ->
  let bin0 := get_timestep_bin (uint_of dti0) in
  -1 <= bin0 <= 30 /\ 0 <= dti0 < 2 ^ 31 /\ dti0 / 2 = 2 ^ bin0 / 2.
Proof.
  intros [->|(k & Hk & ->)].
  { replace (get_timestep_bin (uint_of 0)) with 0 by reflexivity.
    cbn zeta. change (2 ^ 0 / 2) with 0. change (0 / 2) with 0. lia. }
  pose proof (pow2_bound k Hk). cbn zeta.
  rewrite uint_of_small by lia.
  destruct (Z.eq_dec k 0) as [->|Hk0].
  { replace (get_timestep_bin (2 ^ 0)) with (-1) by reflexivity.
    change (2 ^ 0 / 2) with 0. change (2 ^ (-1) / 2) with 0. lia. }
  rewrite get_timestep_bin_of_pow2 by lia. lia.
Qed.

(** The new step and the new bin agree on the midpoint of the next
    step: half of the step is half of [2^bin]. *)
Lemma guarded_bin_step act binold dti0 r :
  (dti0 = 0 \/ exists k, 0 <= k <= 30 /\ dti0 = 2 ^ k) ->
  0 <= binold <= 30 ->
  guarded_bin act binold (get_timestep_bin (uint_of dti0)) dti0 = Some r ->
  -1 <= r.1 <= 30 /\ 0 <= r.2 < 2 ^ 31 /\ r.2 / 2 = 2 ^ r.1 / 2.
Proof.
  intros Hd Hold. destruct (candidate_bin dti0 Hd) as (Hb & Hr & Hhalf).
  unfold guarded_bin.
  set (bin0 := get_timestep_bin (uint_of dti0)) in *.
  destruct (Z.gtb_spec bin0 binold) as [Hgt|Hle].
  - destruct (upward_guard _ _ _ _) as [b|] eqn:Hg; [|discriminate].
    simpl. intros [= <-]. simpl.
    destruct (upward_guard_inv _ _ _ _ _ Hg ltac:(lia)) as (Hrange & _).
    pose proof (dti_of_bin_range b ltac:(lia)).
    rewrite dti_of_bin_half by lia. lia.
  - intros [= <-]. simpl. lia.
Qed.

Lemma guarded_bin_inv act binold bin dti r :
  guarded_bin act binold bin dti = Some r ->
  (bin <= binold -> r = (bin, dti)) /\
  (binold < bin ->
   binold <= r.1 <= bin /\
   (r.1 = binold \/ exists a, arr_get act r.1 = Some a /\ a <> 0) /\
   (forall k, r.1 < k <= bin -> arr_get act k = Some 0)).
Proof.
  unfold guarded_bin. destruct (Z.gtb_spec bin binold) as [Hgt|Hle].
  - destruct (upward_guard _ _ _ _) as [b|] eqn:Hg; [|discriminate].
    simpl. intros [= <-]. split; [lia|]. intros _. simpl.
    apply (upward_guard_inv _ _ _ _ _ Hg). lia.
  - intros [= <-]. split; [reflexivity|lia].
Qed.

(** What one iteration of the kick loop does, when it returns. *)
Lemma advance_particle_inv do_half_kick new_PM ti_min pa S bad S' bad' :
  advance_particle do_half_kick new_PM ti_min pa (S, bad) = Some (S', bad') ->
  exists i raw p r S0 S1,
    arr_get (ActiveParticle S) pa = Some i /\
    (if ForceEqualTimesteps (All S) =? 0
     then int_of <$> get_timestep_ti S i (uint_of new_PM)
     else Some ti_min) = Some raw /\
    arr_get (P S) i = Some p /\
    let dti0 := int_of (round_down_power_of_two raw) in
    let bin0 := get_timestep_bin (uint_of dti0) in
    let ti := kick_interval do_half_kick (Ti_begstep p) (TimeBin p) r.2 in
    guarded_bin (TimeBinActive S) (TimeBin p) bin0 dti0 = Some r /\
    S0 = (if bin0 <? 1
          then log_write S (mkWrite pa SV_badstepsizecount PlainStore)
          else S) /\
    bad' = (if bin0 <? 1 then int_of (bad + 1) else bad) /\
    move_to_bin pa i p r.1 S0 = Some S1 /\
    arr_get (P S') i =
      Some (kick_particle (All S) ti.1 ti.2
              (set_Ti_begstep (set_TimeBin p r.1)
                 (uint_of (Ti_begstep p + uint_of (dti_of_bin (TimeBin p)))))) /\
    (forall j, j <> i -> arr_get (P S') j = arr_get (P S) j) /\
    kicks S' = kicks S ++ [ShortRangeKick i ti.1 ti.2] /\
    TimeBinCount S' = TimeBinCount S1 /\
    TimeBinCountType S' = TimeBinCountType S1 /\
    shared_writes S' = shared_writes S1 /\
    length (P S') = length (P S).
Proof.
  unfold advance_particle. cbn [fst snd]. intros H.
  destruct (arr_get (ActiveParticle S) pa) as [i|] eqn:Hi; [|discriminate].
  cbn [mbind option_bind] in H.
  match type of H with (?d ≫= _) = _ => destruct d as [raw|] eqn:Hraw end;
    [|discriminate].
  cbn [mbind option_bind] in H.
  set (dti0 := int_of (round_down_power_of_two raw)) in *.
  set (bin0 := get_timestep_bin (uint_of dti0)) in *.
  set (S0 := if bin0 <? 1 then _ else S) in *.
  assert (HP0 : P S0 = P S) by (subst S0; destruct (bin0 <? 1); reflexivity).
  assert (HA0 : All S0 = All S) by (subst S0; destruct (bin0 <? 1); reflexivity).
  assert (HK0 : kicks S0 = kicks S)
    by (subst S0; destruct (bin0 <? 1); reflexivity).
  assert (HT0 : TimeBinActive S0 = TimeBinActive S)
    by (subst S0; destruct (bin0 <? 1); reflexivity).
  rewrite HP0, HT0 in H.
  destruct (arr_get (P S) i) as [p|] eqn:Hp; [|discriminate].
  cbn [mbind option_bind] in H.
  destruct (guarded_bin _ _ _ _) as [r|] eqn:Hr; [|discriminate].
  cbn [mbind option_bind] in H.
  destruct (move_to_bin pa i p r.1 S0) as [S1|] eqn:Hmove; [|discriminate].
  cbn [mbind option_bind] in H.
  rewrite <- HP0 in Hp.
  destruct (move_to_bin_particle _ _ _ _ _ _ Hp Hmove)
    as (Hp1 & Hoth1 & HL1 & HA1 & HK1 & _).
  rewrite Hp1 in H. cbn [mbind option_bind] in H.
  destruct (arr_set (P S1) i _) as [ps|] eqn:Hset; [|discriminate].
  cbn [mbind option_bind] in H.
  destruct (do_the_short_range_kick _ _ _ _) as [S2|] eqn:Hkick;
    [|discriminate].
  cbn [mbind option_bind] in H. injection H as <- <-.
  pose proof (arr_get_set_eq _ _ _ _ Hset) as Hp2.
  destruct (do_the_short_range_kick_inv i _ _ (set_P S1 ps) S2 _ Hp2 Hkick)
    as (Hp3 & Hoth3 & HK3 & HA3 & _ & _ & HC3 & HCT3 & _ & _ & HW3 & HL3).
  exists i, raw, p, r, S0, S1. rewrite HP0 in Hp.
  split; [reflexivity|]. split; [exact Hraw|]. split; [exact Hp|].
  cbn zeta. split; [exact Hr|]. split; [reflexivity|]. split; [reflexivity|].
  split; [exact Hmove|].
  simpl in *. rewrite HA1, HA0 in Hp3.
  split; [exact Hp3|]. split.
  { intros j Hj. rewrite Hoth3 by exact Hj.
    rewrite (arr_get_set_ne _ _ _ j _ Hset) by congruence.
    rewrite Hoth1 by exact Hj. now rewrite HP0. }
  split; [now rewrite HK3, HK1, HK0|].
  split; [exact HC3|]. split; [exact HCT3|]. split; [exact HW3|].
  now rewrite HL3, (arr_set_length _ _ _ _ Hset), HL1, HP0.
Qed.

End AdvanceFacts.


Lemma ref_env_rounds : rounds_to_power_of_two (E := ref_env).
Proof.
  intros d Hd. unfold INT_MIN, INT_MAX in Hd. simpl.
  unfold ref_round_down_power_of_two.
  destruct (Z.leb_spec d 0) as [|Hpos]; [left; reflexivity|].
  right. exists (Z.log2 d).
  assert (0 <= Z.log2 d <= 30) as Hk.
  { pose proof (Z.log2_nonneg d).
    assert (Z.log2 d < 31) by (apply Z.log2_lt_pow2; lia). lia. }
  split; [exact Hk|]. apply int_of_small.
  pose proof (pow2_bound _ Hk). lia.
Qed.

Section KickIntervalFacts.
Context {E : TimestepEnv}.

(** ** The kick interval of advance_and_find_timesteps (C1) *)


(** ** The upward movement guard in the kick loop (C4) *)

(** C4: in one iteration of the kick loop on particle [i], let [cand]
    be the bin of the rounded step.  When [cand] does not exceed the old
    bin the particle gets bin [cand].  When it does, the new bin lies
    between the old bin and [cand], it is the old bin or an active bin,
    and every bin above it up to [cand] is inactive: the candidate was
    walked down to the first active bin, or to the old bin.  So a
    particle that moves to a higher bin moves to an active one; and a
    particle in bin 3 that asks for bin 6 while bin 4 is active and bins
    5 and 6 are not ends in bin 4, not 6. *)
Theorem advance_particle_upward_guard
    do_half_kick new_PM ti_min pa S bad S' bad' i p p' :
  arr_get (ActiveParticle S) pa = Some i ->
  arr_get (P S) i = Some p ->
  advance_particle do_half_kick new_PM ti_min pa (S, bad) = Some (S', bad') ->
  arr_get (P S') i = Some p' ->
  let act := TimeBinActive S in
  let active b := exists a, arr_get act b = Some a /\ a <> 0 in
  exists raw,
    (if ForceEqualTimesteps (All S) =? 0
     then int_of <$> get_timestep_ti S i (uint_of new_PM)
     else Some ti_min) = Some raw /\
    let cand :=
      get_timestep_bin (uint_of (int_of (round_down_power_of_two raw))) in
    (cand <= TimeBin p -> TimeBin p' = cand) /\
    (TimeBin p < cand ->
     TimeBin p <= TimeBin p' <= cand /\
     (TimeBin p' = TimeBin p \/ active (TimeBin p')) /\
     (forall k, TimeBin p' < k <= cand -> arr_get act k = Some 0)) /\
    (TimeBin p < TimeBin p' -> active (TimeBin p')) /\
    (TimeBin p = 3 -> cand = 6 -> active 4 ->
     arr_get act 5 = Some 0 -> arr_get act 6 = Some 0 -> TimeBin p' = 4).
Proof.
  intros Hi Hp Hrun Hp' act active.
  destruct (advance_particle_inv _ _ _ _ _ _ _ _ Hrun)
    as (i' & raw & p0 & r & S0 & S1 & Hi' & Hraw & Hp0 & Hrest).
  rewrite Hi in Hi'. injection Hi' as <-.
  rewrite Hp in Hp0. injection Hp0 as <-.
  cbn zeta in Hrest. destruct Hrest as (Hr & _ & _ & _ & Hq & _).
  rewrite Hp' in Hq. injection Hq as ->.
  match goal with |- context [TimeBin (kick_particle ?A ?a ?b ?q)] =>
    destruct (kick_particle_frame A a b q) as (Hb' & _) end.
  exists raw. split; [exact Hraw|]. cbn zeta. rewrite Hb'. simpl.
  destruct (guarded_bin_inv _ _ _ _ _ Hr) as (Hle & Hgt).
  set (cand := get_timestep_bin _) in *.
  assert (Hup : TimeBin p < cand ->
     TimeBin p <= r.1 <= cand /\
     (r.1 = TimeBin p \/ active r.1) /\
     (forall k, r.1 < k <= cand -> arr_get act k = Some 0))
    by exact Hgt.
  split; [intros H; now rewrite (Hle H)|].
  split; [exact Hup|]. split.
  - intros Hhigher.
    destruct (Z.le_gt_cases cand (TimeBin p)) as [Hc|Hc].
    + rewrite (Hle Hc) in Hhigher. simpl in Hhigher. lia.
    + destruct (Hup Hc) as (_ & [Heq|Hact] & _); [lia|exact Hact].
  - intros H3 Hc6 (a4 & Ha4 & Hne4) H5 H6.
    destruct (Hup ltac:(lia)) as (Hrange & Hstop & Hskip).
    destruct (Z.le_gt_cases 4 r.1) as [H4|H4].
    + destruct (Z.eq_dec r.1 4) as [|Hn4]; [assumption|].
      destruct Hstop as [Heq|(a & Ha & Hne)]; [lia|].
      destruct (Z.eq_dec r.1 5) as [H55|Hn5].
      * rewrite H55, H5 in Ha. congruence.
      * assert (r.1 = 6) as H66 by lia.
        rewrite H66, H6 in Ha. congruence.
    + rewrite (Hskip 4) in Ha4 by lia. congruence.
Qed.

End KickIntervalFacts.


Lemma advance_particle_upward_guard_witness :
  exists S' bad' p',
    advance_particle (E := ref_env) 0 1024 (2 ^ 29) 0 (ex_scenario, 0)
    = Some (S', bad') /\
    arr_get (P S') 0 = Some p' /\
    TimeBin p' = 4.
Proof.
  destruct (advance_particle (E := ref_env) 0 1024 (2 ^ 29) 0 (ex_scenario, 0))
    as [[S' bad']|] eqn:Hrun; [|vm_compute in Hrun; discriminate].
  destruct (arr_get (P S') 0) as [p'|] eqn:Hp';
    [|vm_compute in Hrun; injection Hrun as <- _; discriminate Hp'].
  exists S', bad', p'. split; [reflexivity|]. split; [exact Hp'|].
  destruct (advance_particle_upward_guard (E := ref_env)
              0 1024 (2 ^ 29) 0 ex_scenario 0 S' bad' 0
              (ex_halo 3 8 (inject_Z (2 ^ 46))) p'
              eq_refl eq_refl Hrun Hp')
    as (raw & Hraw & _ & _ & _ & Hscenario).
  vm_compute in Hraw. injection Hraw as <-.
  apply Hscenario;
    [ reflexivity | reflexivity | exists 1; split; [reflexivity|discriminate]
    | reflexivity | reflexivity ].
Defined.

(** ** The entropy bound of the short-range kick (C3) *)

Lemma Qltb_true x y : Qltb x y = true -> (x < y)%Q.
Proof.
  unfold Qltb. intros H%negb_true_iff.
  apply Qnot_le_lt. intros Hle%Qle_bool_iff. congruence.
Qed.

Lemma Qltb_false x y : Qltb x y = false -> (y <= x)%Q.
Proof. unfold Qltb. intros H%negb_false_iff. now apply Qle_bool_iff. Qed.

Section EntropyFacts.
Context {E : TimestepEnv}.



End EntropyFacts.



(** ** Bin accounting (C5) *)

Lemma sum_counts_insert (l : list Z) i c x :
  l !! i = Some c -> sum_counts (<[i := x]> l) = sum_counts l - c + x.
Proof.
  revert i. induction l as [|y l IH]; intros [|i] H; try discriminate.
  - injection H as ->. simpl. lia.
  - simpl in *. rewrite (IH i H). lia.
Qed.

Lemma sum_counts_replicate n : sum_counts (replicate n 0) = 0.
Proof. induction n as [|n IH]; simpl; [reflexivity|exact IH]. Qed.

Lemma arr_get_lookup {A} (a : list A) i x :
  arr_get a i = Some x -> a !! Z.to_nat i = Some x.
Proof. unfold arr_get. destruct (i <? 0); [discriminate|auto]. Qed.

(** [a[i] = x;] changes the sum by [x - a[i]] and only entry [i]. *)
Lemma arr_set_sum (a a' : list Z) i c x :
  arr_get a i = Some c -> arr_set a i x = Some a' ->
  sum_counts a' = sum_counts a - c + x.
Proof.
  intros Hc%arr_get_lookup [_ ->]%arr_set_inv.
  now apply sum_counts_insert.
Qed.

Lemma arr_get_set {A} (a a' : list A) i j x :
  arr_set a i x = Some a' ->
  arr_get a' j = if j =? i then Some x else arr_get a j.
Proof.
  intros H. destruct (Z.eqb_spec j i) as [->|Hne].
  - eapply arr_get_set_eq, H.
  - eapply arr_get_set_ne; [exact H|congruence].
Qed.

(** Replacing row [t] changes the sum of column [b] by the difference
    of the two entries. *)
Lemma column_sum_set_row (m m' : list (list Z)) t row row' b :
  arr_get m t = Some row -> arr_set m t row' = Some m' ->
  column_sum m' b =
  column_sum m b - default 0 (arr_get row b) + default 0 (arr_get row' b).
Proof.
  intros Hrow%arr_get_lookup [_ ->]%arr_set_inv. unfold column_sum.
  rewrite list_fmap_insert. apply sum_counts_insert.
  rewrite list_lookup_fmap, Hrow. reflexivity.
Qed.

Lemma column_sum_zero n k b : column_sum (replicate n (replicate k 0)) b = 0.
Proof.
  unfold column_sum. rewrite fmap_replicate.
  assert (default 0 (arr_get (replicate k 0) b) = 0) as ->.
  { unfold arr_get. destruct (b <? 0); [reflexivity|].
    destruct (replicate k 0 !! Z.to_nat b) as [c|] eqn:Hc; [|reflexivity].
    apply lookup_replicate in Hc as [-> _]. reflexivity. }
  apply sum_counts_replicate.
Qed.

Lemma Forall_arr_get {A} (Q : A -> Prop) (a : list A) i x :
  Forall Q a -> arr_get a i = Some x -> Q x.
Proof.
  intros Ha Hx%arr_get_lookup. eapply Forall_lookup_1; eauto.
Qed.

Lemma Forall_arr_set {A} (Q : A -> Prop) (a a' : list A) i x :
  Forall Q a -> Q x -> arr_set a i x = Some a' -> Forall Q a'.
Proof.
  intros Ha Hx [_ ->]%arr_set_inv. now apply Forall_insert.
Qed.

Section AccountingFacts.
Context {E : TimestepEnv}.

(** One more particle counted in bin [bin] for type [type]: both
    equalities go from [k] particles to [k + d]. *)
Lemma counts_agree_bump k d cnt cntT cnt' cntT' type bin c row ct row' :
  counts_shape cnt cntT -> counts_agree k cnt cntT ->
  arr_get cnt bin = Some c -> arr_set cnt bin (c + d) = Some cnt' ->
  arr_get cntT type = Some row -> arr_get row bin = Some ct ->
  arr_set row bin (ct + d) = Some row' ->
  arr_set cntT type row' = Some cntT' ->
  counts_shape cnt' cntT' /\ counts_agree (k + d) cnt' cntT'.
Proof.
  intros (Hlen & Hrows & Hrow) (Hsum & Hcol) Hc Hcnt' Hr Hct Hrow' HcntT'.
  split; [|split].
  - split; [now rewrite (arr_set_length _ _ _ _ Hcnt')|].
    split; [now rewrite (arr_set_length _ _ _ _ HcntT')|].
    eapply Forall_arr_set; [exact Hrow| |exact HcntT'].
    rewrite (arr_set_length _ _ _ _ Hrow').
    eapply (Forall_arr_get _ _ _ _ Hrow Hr).
  - rewrite (arr_set_sum _ _ _ _ _ Hc Hcnt'). lia.
  - intros b Hb.
    rewrite (column_sum_set_row _ _ _ _ _ b Hr HcntT').
    rewrite (arr_get_set _ _ _ b _ Hrow'), (arr_get_set _ _ _ b _ Hcnt').
    specialize (Hcol b Hb).
    destruct (Z.eqb_spec b bin) as [->|Hne].
    + rewrite Hc in Hcol. injection Hcol as Hcol.
      rewrite Hct. simpl. f_equal. lia.
    + rewrite <- Hcol. f_equal. lia.
Qed.

End AccountingFacts.

Section MigrationFacts.
Context {E : TimestepEnv}.



Lemma migrate_counts_total pa type binold bin S :
  registry_shape S ->
  0 <= binold < TIMEBINS -> 0 <= bin < TIMEBINS -> 0 <= type < 6 ->
  is_Some (migrate_counts pa type binold bin S).
Proof.
  intros ((Hlen & Hrows & Hrow) & _) Hold Hnew Htype. unfold migrate_counts.
  destruct (arr_get_is_Some (TimeBinCount S) binold ltac:(lia)) as [c Hc].
  rewrite Hc. simpl.
  rewrite arr_set_Some by lia. simpl.
  destruct (arr_get_is_Some (<[Z.to_nat binold := int_of (c + -1)]>
                               (TimeBinCount S)) bin) as [c' Hc'];
    [rewrite length_insert; lia|].
  rewrite Hc'. simpl.
  rewrite arr_set_Some by (rewrite length_insert; lia). simpl.
  destruct (arr_get_is_Some (TimeBinCountType S) type ltac:(lia)) as [row Hr].
  rewrite Hr. simpl.
  pose proof (Forall_arr_get _ _ _ _ Hrow Hr) as Hlr. simpl in Hlr.
  destruct (arr_get_is_Some row binold ltac:(lia)) as [ct Hct].
  rewrite Hct. simpl.
  rewrite arr_set_Some by lia. simpl.
  destruct (arr_get_is_Some (<[Z.to_nat binold := int_of (ct + -1)]> row) bin)
    as [ct' Hct']; [rewrite length_insert; lia|].
  rewrite Hct'. simpl.
  rewrite arr_set_Some by (rewrite length_insert; lia). simpl.
  rewrite arr_set_Some by lia. simpl. eauto.
Qed.


End MigrationFacts.

Section RebuildFacts.
Context {E : TimestepEnv}.

(** The invariant of the counting loop of [rebuild_activelist] after
    [k] particles. *)
Lemma count_particle_step act i p k active cnt cntT :
  Z.of_nat (length act) = TIMEBINS ->
  0 <= TimeBin p < TIMEBINS -> 0 <= PType p < 6 ->
  0 <= k < INT_MAX ->
  counts_shape cnt cntT -> counts_agree k cnt cntT ->
  counters_bounded 0 k cnt cntT ->
  exists active' cnt' cntT',
    count_particle act i p (active, cnt, cntT) = Some (active', cnt', cntT') /\
    counts_shape cnt' cntT' /\ counts_agree (k + 1) cnt' cntT' /\
    counters_bounded 0 (k + 1) cnt' cntT'.
Proof.
  intros Hact Hbin Htype Hk Hshape Hagree (Hb1 & Hb2).
  pose proof Hshape as (Hlen & Hrows & Hrow).
  unfold count_particle.
  destruct (arr_get_is_Some act (TimeBin p) ltac:(lia)) as [a Ha].
  rewrite Ha. cbn [mbind option_bind].
  destruct (arr_get_is_Some cnt (TimeBin p) ltac:(lia)) as [c Hc].
  rewrite Hc. cbn [mbind option_bind].
  pose proof (Forall_arr_get _ _ _ _ Hb1 Hc) as Hcr. simpl in Hcr.
  rewrite (int_of_small (c + 1)) by (unfold INT_MAX in Hk; lia).
  pose proof (arr_set_Some cnt (TimeBin p) (c + 1) ltac:(lia)) as Hcnt'.
  rewrite Hcnt'. cbn [mbind option_bind].
  destruct (arr_get_is_Some cntT (PType p) ltac:(lia)) as [row Hr].
  rewrite Hr. cbn [mbind option_bind].
  pose proof (Forall_arr_get _ _ _ _ Hrow Hr) as Hlr. simpl in Hlr.
  pose proof (Forall_arr_get _ _ _ _ Hb2 Hr) as Hrb. simpl in Hrb.
  destruct (arr_get_is_Some row (TimeBin p) ltac:(lia)) as [ct Hct].
  rewrite Hct. cbn [mbind option_bind].
  pose proof (Forall_arr_get _ _ _ _ Hrb Hct) as Hctr. simpl in Hctr.
  rewrite (int_of_small (ct + 1)) by (unfold INT_MAX in Hk; lia).
  pose proof (arr_set_Some row (TimeBin p) (ct + 1) ltac:(lia)) as Hrow'.
  rewrite Hrow'. cbn [mbind option_bind].
  pose proof (arr_set_Some cntT (PType p)
                (<[Z.to_nat (TimeBin p) := ct + 1]> row) ltac:(lia)) as HcntT'.
  rewrite HcntT'. cbn [mbind option_bind].
  destruct (counts_agree_bump _ _ _ _ _ _ _ _ _ _ _ _
              Hshape Hagree Hc Hcnt' Hr Hct Hrow' HcntT') as (Hshape' & Hagree').
  do 3 eexists. split; [reflexivity|].
  split; [exact Hshape'|]. split; [exact Hagree'|].
  assert (Hmono : forall x : Z, 0 <= x <= k -> 0 <= x <= k + 1) by (intros; lia).
  split.
  - apply Forall_insert; [|lia]. eapply Forall_impl; [exact Hb1|exact Hmono].
  - apply Forall_insert.
    + eapply Forall_impl; [exact Hb2|]. intros l Hl.
      eapply Forall_impl; [exact Hl|exact Hmono].
    + apply Forall_insert; [|lia].
      eapply Forall_impl; [exact Hrb|exact Hmono].
Qed.

(** [rebuild_activelist] returns, with both accounting equalities. *)
Lemma rebuild_activelist_accounting S :
  0 <= TIMEBINS ->
  Z.of_nat (length (TimeBinActive S)) = TIMEBINS ->
  particles_in_range S ->
  NumPart S <= INT_MAX ->
  exists S', rebuild_activelist S = Some S' /\
    bin_accounting S' /\ registry_shape S' /\ P S' = P S.
Proof.
  intros HT Hact Hpart Hnum. unfold rebuild_activelist.
  set (zeros := replicate (Z.to_nat TIMEBINS) 0).
  destruct (for_loop_total
    (fun k (acc : list Z * list Z * list (list Z)) =>
       counts_shape acc.1.2 acc.2 /\ counts_agree k acc.1.2 acc.2 /\
       counters_bounded 0 k acc.1.2 acc.2)
    (length (P S)) 0
    (fun i acc => p ← arr_get (P S) i; count_particle (TimeBinActive S) i p acc)
    ([], zeros, replicate 6 zeros)) as ([[active cnt] cntT] & Hrun & Hinv).
  - cbn [fst snd]. split; [|split].
    + split; [subst zeros; rewrite length_replicate; lia|].
      split; [apply length_replicate|].
      apply Forall_replicate. subst zeros. rewrite length_replicate. lia.
    + split; [apply sum_counts_replicate|].
      intros b Hb. subst zeros. rewrite column_sum_zero.
      unfold arr_get. destruct (Z.ltb_spec b 0); [lia|].
      symmetry. apply lookup_replicate. split; [reflexivity|lia].
    + split; [apply Forall_replicate; lia|].
      apply Forall_replicate, Forall_replicate. lia.
  - intros k [[active cnt] cntT] Hk (Hshape & Hagree & Hbound). simpl in *.
    destruct (arr_get_is_Some (P S) k ltac:(lia)) as [p Hp].
    rewrite Hp. cbn [mbind option_bind].
    pose proof (Forall_arr_get _ _ _ _ Hpart Hp) as [Hbin Htype].
    unfold NumPart in Hnum.
    destruct (count_particle_step (TimeBinActive S) k p k active cnt cntT
                Hact Hbin Htype ltac:(lia) Hshape Hagree Hbound)
      as (active' & cnt' & cntT' & Hstep & H1 & H2 & H3).
    exists (active', cnt', cntT'). split; [exact Hstep|]. simpl. auto.
  - rewrite Hrun. cbn [mbind option_bind]. eexists. split; [reflexivity|].
    simpl in Hinv. destruct Hinv as (Hshape & Hagree & _).
    split; [exact Hagree|]. split; [split; [exact Hshape|exact Hact]|].
    reflexivity.
Qed.


End RebuildFacts.


(** ** apply_half_kick (C7) *)

Section HalfKickFacts.
Context {E : TimestepEnv}.




End HalfKickFacts.


(** ** The shared variables of the parallel loops (C9) *)

(** C9: the parallel loops of [advance_and_find_timesteps] store to
    shared variables without atomics.  With two active particles whose
    step rounds to no tick, iterations 0 and 1 of the kick loop both
    increment [badstepsizecount] by a plain store.  With
    [ForceEqualTimesteps] and three active particles of steps 64, 16 and
    4, iterations 1 and 2 of the equalisation loop both store [ti_min]
    plainly; run by two workers that load before either stores, the
    loop leaves [ti_min = 16] although the smallest step is 4. *)
Theorem parallel_loops_plain_stores :
  (exists S S' bad,
     ex_synced 0 0 [ex_halo 0 0 (inject_Z (2 ^ 80));
                    ex_halo 0 0 (inject_Z (2 ^ 80))] = Some S /\
     advance_and_find_timesteps (E := ref_env) 0 1024 S = Some (S', bad) /\
     shared_writes S' = [mkWrite 0 SV_badstepsizecount PlainStore;
                         mkWrite 1 SV_badstepsizecount PlainStore] /\
     ~ only_atomic_bin_counts (shared_writes S')) /\
  (exists S S' ti_min,
     ex_synced 1 0 [ex_halo 0 0 (inject_Z (2 ^ 46));
                    ex_halo 0 0 (inject_Z (2 ^ 50));
                    ex_halo 0 0 (inject_Z (2 ^ 54))] = Some S /\
     equalize_timesteps (E := ref_env) 1024 S = Some (S', ti_min) /\
     ti_min = 4 /\
     shared_writes S' = [mkWrite 1 SV_ti_min PlainStore;
                         mkWrite 2 SV_ti_min PlainStore] /\
     ~ only_atomic_bin_counts (shared_writes S')) /\
  (run_schedule [0; 0; 1; 1]%nat 64
     [mkWorker 16 None false; mkWorker 4 None false]).1 = 4 /\
  run_schedule [0; 1; 1; 0]%nat 64
    [mkWorker 16 None false; mkWorker 4 None false]
  = (16, [mkWorker 16 (Some 64) true; mkWorker 4 (Some 64) true]).
Proof.
  split; [|split; [|split; reflexivity]].
  - do 3 eexists. split; [vm_compute; reflexivity|].
    split; [vm_compute; reflexivity|]. split; [reflexivity|].
    intros H. apply Forall_inv in H as [H _]. discriminate H.
  - do 3 eexists. split; [vm_compute; reflexivity|].
    split; [vm_compute; reflexivity|]. split; [reflexivity|].
    split; [reflexivity|].
    intros H. apply Forall_inv in H as [H _]. discriminate H.
Qed.

(** ** find_next_kick without snapshot bits *)

Lemma land_high_mask a T :
  0 <= T <= 32 -> 0 <= a < 2 ^ T ->
  Z.land a (uint_of (Z.lnot (2 ^ T - 1))) = 0.
Proof.
  intros HT Ha.
  assert (Hm : uint_of (Z.lnot (2 ^ T - 1)) = (2 ^ (32 - T) - 1) * 2 ^ T).
  { unfold Z.lnot, uint_of.
    replace (Z.pred (- (2 ^ T - 1))) with (- 2 ^ T) by lia.
    assert (2 ^ 32 = 2 ^ (32 - T) * 2 ^ T) as Hs
      by (rewrite <- Z.pow_add_r by lia; f_equal; lia).
    pose proof (Z.pow_pos_nonneg 2 T ltac:(lia) ltac:(lia)).
    pose proof (Z.pow_pos_nonneg 2 (32 - T) ltac:(lia) ltac:(lia)).
    symmetry. apply (Z.mod_unique _ _ (-1)); [left; nia|lia]. }
  rewrite Hm. apply Z.bits_inj'. intros n Hn.
  rewrite Z.land_spec, Z.bits_0.
  destruct (Z.lt_ge_cases n T) as [Hlt|Hge].
  - rewrite Z.mul_pow2_bits_low by lia. apply andb_false_r.
  - replace (Z.testbit a n) with false; [reflexivity|].
    symmetry. destruct (Z.eq_dec a 0) as [->|]; [apply Z.bits_0|].
    apply Z.bits_above_log2; [lia|].
    apply Z.lt_le_trans with T; [|lia].
    apply Z.log2_lt_pow2; lia.
Qed.

Lemma land_low_mask a T :
  0 <= T <= 31 -> 0 <= a < 2 ^ T -> Z.land a (uint_of (2 ^ T - 1)) = a.
Proof.
  intros HT Ha.
  assert (2 ^ T <= 2 ^ 31) by (apply Z.pow_le_mono_r; lia).
  rewrite uint_of_small by lia.
  replace (2 ^ T - 1) with (Z.ones T) by (rewrite Z.ones_equiv; lia).
  rewrite Z.land_ones by lia. apply Z.mod_small. lia.
Qed.

Section SynchronizerFacts.
Context {E : TimestepEnv}.

(** When the tick carries no snapshot bits and bin 0 is populated,
    [find_next_kick] asks for an immediate sync: no bin can fire before
    the current tick. *)
Lemma find_next_kick_bin0_no_snapshot S Ti T c0 :
  TIMEBASE = 2 ^ T -> 0 <= T <= 30 ->
  1 <= TIMEBINS <= 31 ->
  TIMEBINS <= Z.of_nat (length (TimeBinCount S)) ->
  arr_get (TimeBinCount S) 0 = Some c0 -> c0 <> 0 ->
  0 <= Ti < TIMEBASE ->
  find_next_kick_local S Ti = Some Ti /\ find_next_kick S Ti = Some Ti.
Proof.
  intros HTB HT Hbins Hlen Hc0 Hne HTi.
  assert (Hpow : 2 ^ T <= 2 ^ 30) by (apply Z.pow_le_mono_r; lia).
  assert (Hlocal : find_next_kick_local S Ti = Some Ti).
  { unfold find_next_kick_local. rewrite Hc0. cbn [mbind option_bind].
    destruct (Z.eqb_spec c0 0) as [|_]; [contradiction|].
    rewrite HTB in *.
    rewrite land_high_mask, land_low_mask by lia.
    rewrite (int_of_small Ti) by lia.
    match goal with |- context [for_loop ?n ?lo ?body Ti] =>
      destruct (for_loop_total (fun _ t => t = Ti) n lo body Ti)
        as (t & Hrun & ->) end.
    - reflexivity.
    - intros n t Hn ->.
      destruct (arr_get_is_Some (TimeBinCount S) n ltac:(lia)) as [c Hc].
      rewrite Hc. cbn [mbind option_bind].
      destruct (c =? 0); [eauto|].
      rewrite shl1_pow2 by lia.
      pose proof (pow2_bound n ltac:(lia)) as Hdt.
      rewrite (uint_of_small (2 ^ n)) by lia.
      pose proof (Z.mul_div_le Ti (2 ^ n) ltac:(lia)).
      pose proof (Z.mod_pos_bound Ti (2 ^ n) ltac:(lia)).
      pose proof (Z.div_mod Ti (2 ^ n) ltac:(lia)).
      assert (0 <= Ti / 2 ^ n * 2 ^ n <= Ti).
      { split; [apply Z.mul_nonneg_nonneg; [apply Z.div_pos|]; lia|lia]. }
      rewrite (uint_of_small (Ti / 2 ^ n * 2 ^ n)) by lia.
      rewrite (uint_of_small (Ti / 2 ^ n * 2 ^ n + 2 ^ n)) by lia.
      rewrite (uint_of_small Ti) by lia.
      destruct (Z.ltb_spec (Ti / 2 ^ n * 2 ^ n + 2 ^ n) Ti); [lia|eauto].
    - rewrite Hrun. cbn [mbind option_bind]. change (int_of 0) with 0.
      rewrite Z.add_0_r, int_of_small by lia. reflexivity. }
  split; [exact Hlocal|].
  unfold find_next_kick. rewrite Hlocal. simpl.
  rewrite uint_of_small by lia. reflexivity.
Qed.

End SynchronizerFacts.

(** ** The kick loop returns, and what it writes to shared variables *)

Section KickLoopFacts.
Context {E : TimestepEnv}.

Lemma migrate_counts_writes pa type binold bin S S' :
  migrate_counts pa type binold bin S = Some S' ->
  P S' = P S /\
  shared_writes S' = shared_writes S ++
    [mkWrite pa (SV_TimeBinCount binold) AtomicFetchAndAdd;
     mkWrite pa (SV_TimeBinCount bin) AtomicFetchAndAdd;
     mkWrite pa (SV_TimeBinCountType type binold) AtomicFetchAndAdd;
     mkWrite pa (SV_TimeBinCountType type bin) AtomicFetchAndAdd].
Proof.
  unfold migrate_counts. intros H. simplify_option_eq.
  split; [reflexivity|]. simpl. now rewrite <- !app_assoc.
Qed.

(** Apart from the bad-step counter, an iteration of the kick loop
    writes shared variables only through the four fetch-and-adds of a
    bin move. *)
Lemma advance_particle_writes do_half_kick new_PM ti_min pa S bad S' bad' :
  advance_particle do_half_kick new_PM ti_min pa (S, bad) = Some (S', bad') ->
  exists log,
    shared_writes S' = shared_writes S ++ log /\
    (log = [] \/ log = [mkWrite pa SV_badstepsizecount PlainStore] \/
     only_atomic_bin_counts log \/
     exists log', log = mkWrite pa SV_badstepsizecount PlainStore :: log' /\
                  only_atomic_bin_counts log').
Proof.
  intros Hrun.
  destruct (advance_particle_inv _ _ _ _ _ _ _ _ Hrun)
    as (i & raw & p & r & S0 & S1 & _ & _ & Hp & Hrest).
  cbn zeta in Hrest.
  destruct Hrest as (_ & HS0 & _ & Hmove & _ & _ & _ & _ & _ & HW & _).
  rewrite HW. clear HW Hrun.
  assert (Hmig : exists log1, shared_writes S1 = shared_writes S0 ++ log1 /\
            (log1 = [] \/ (log1 <> [] /\ only_atomic_bin_counts log1))).
  { unfold move_to_bin in Hmove.
    destruct (r.1 =? TimeBin p).
    - injection Hmove as <-. exists []. split; [now rewrite app_nil_r|].
      now left.
    - destruct (migrate_counts _ _ _ _ S0) as [Sm|] eqn:Hm; [|discriminate].
      simpl in Hmove. destruct (arr_set (P Sm) i _); [|discriminate].
      injection Hmove as <-. simpl.
      destruct (migrate_counts_writes _ _ _ _ _ _ Hm) as (_ & ->).
      eexists. split; [reflexivity|]. right. split; [discriminate|].
      repeat constructor. }
  destruct Hmig as (log1 & -> & Hlog1). subst S0.
  destruct (_ <? 1); simpl.
  - rewrite <- app_assoc. eexists. split; [reflexivity|]. simpl.
    destruct Hlog1 as [->|[_ Hat]]; [right; now left|].
    right. right. right. eauto.
  - eexists. split; [reflexivity|].
    destruct Hlog1 as [->|[_ Hat]]; [now left|]. right. right. now left.
Qed.

(** An iteration of the kick loop returns when the registry has its
    shape, the particle is in it, and the candidate bin is a bin of the
    registry. *)
Lemma advance_particle_total
    do_half_kick new_PM ti_min pa S bad i p raw :
  registry_shape S ->
  arr_get (ActiveParticle S) pa = Some i ->
  arr_get (P S) i = Some p ->
  0 <= TimeBin p < TIMEBINS -> 0 <= PType p < 6 ->
  (if ForceEqualTimesteps (All S) =? 0
   then int_of <$> get_timestep_ti S i (uint_of new_PM)
   else Some ti_min) = Some raw ->
  0 <= get_timestep_bin (uint_of (int_of (round_down_power_of_two raw)))
    < TIMEBINS ->
  is_Some (advance_particle do_half_kick new_PM ti_min pa (S, bad)).
Proof.
  intros Hshape Hi Hp Hbin Htype Hraw Hcand.
  unfold advance_particle. cbn [fst snd].
  rewrite Hi. cbn [mbind option_bind]. rewrite Hraw. cbn [mbind option_bind].
  set (dti0 := int_of (round_down_power_of_two raw)) in *.
  set (bin0 := get_timestep_bin (uint_of dti0)) in *.
  set (S0 := if bin0 <? 1 then _ else S).
  assert (HP0 : P S0 = P S) by (subst S0; destruct (bin0 <? 1); reflexivity).
  assert (HT0 : TimeBinActive S0 = TimeBinActive S)
    by (subst S0; destruct (bin0 <? 1); reflexivity).
  assert (Hshape0 : registry_shape S0)
    by (subst S0; destruct (bin0 <? 1); exact Hshape).
  rewrite HP0, HT0, Hp. cbn [mbind option_bind].
  assert (Hr : exists r, guarded_bin (TimeBinActive S) (TimeBin p) bin0 dti0
                         = Some r /\ 0 <= r.1 < TIMEBINS).
  { unfold guarded_bin. destruct (Z.gtb_spec bin0 (TimeBin p)) as [Hgt|Hle].
    - destruct (upward_guard_total (TimeBinActive S) (TimeBin p)
                  (Z.to_nat (bin0 - TimeBin p)) bin0)
        as (b & Hb & Hrange & _); [lia|lia| |].
      + intros k Hk. apply arr_get_is_Some. destruct Hshape as [_ Hact].
        fold bin0 in Hcand. lia.
      + rewrite Hb. simpl. eexists. split; [reflexivity|]. simpl. lia.
    - eexists. split; [reflexivity|]. simpl. lia. }
  destruct Hr as (r & -> & Hr). cbn [mbind option_bind].
  assert (Hmove : exists S1, move_to_bin pa i p r.1 S0 = Some S1).
  { unfold move_to_bin. destruct (r.1 =? TimeBin p); [eauto|].
    destruct (migrate_counts_total pa (PType p) (TimeBin p) r.1 S0
                Hshape0 Hbin Hr Htype) as [Sm Hm].
    rewrite Hm. simpl.
    destruct (migrate_counts_writes _ _ _ _ _ _ Hm) as (HPm & _).
    rewrite HPm, HP0, arr_set_Some by (eapply arr_get_Some, Hp).
    simpl. eauto. }
  destruct Hmove as (S1 & Hmove). rewrite Hmove. cbn [mbind option_bind].
  rewrite <- HP0 in Hp.
  destruct (move_to_bin_particle _ _ _ _ _ _ Hp Hmove) as (Hp1 & _).
  rewrite Hp1. cbn [mbind option_bind].
  rewrite arr_set_Some by (eapply arr_get_Some, Hp1).
  cbn [mbind option_bind].
  match goal with |- context [do_the_short_range_kick ?i ?a ?b ?St] =>
    destruct (do_the_short_range_kick_total i a b St) as [S2 ->] end.
  - simpl. apply arr_get_is_Some. rewrite length_insert.
    eapply arr_get_Some, Hp1.
  - simpl. eauto.
Qed.

End KickLoopFacts.

(** * Further properties *)

(** ** get_timestep_bin is the integer logarithm *)

Lemma shift_loop_log2 n dti bin :
  0 < dti < 2 ^ Z.of_nat n -> shift_loop n dti bin = bin + Z.log2 dti + 1.
Proof.
  revert dti bin. induction n as [|n IH]; intros dti bin Hd.
  - simpl in Hd. lia.
  - simpl. destruct (Z.eqb_spec dti 0) as [|_]; [lia|].
    destruct (Z.eq_dec dti 1) as [->|Hne].
    + change (Z.shiftr 1 1) with 0. change (Z.log2 1) with 0.
      destruct n; simpl; lia.
    + rewrite Nat2Z.inj_succ, Z.pow_succ_r in Hd by lia.
      assert (Hs : Z.shiftr dti 1 = dti / 2)
        by (rewrite Z.shiftr_div_pow2 by lia; reflexivity).
      rewrite IH.
      * rewrite Z.log2_shiftr by lia.
        assert (1 <= Z.log2 dti) by (apply Z.log2_le_pow2; lia). lia.
      * rewrite Hs. split; [apply Z.div_str_pos; lia|].
        apply Z.div_lt_upper_bound; lia.
Qed.

(** X1: for a step of at least two ticks, [get_timestep_bin] is the
    integer logarithm of the step: the bin [b] with
    [2^b <= dti < 2^(b+1)]; and the bin is below 1, which is what the
    caller counts as a bad step, exactly for a step of 0 or 1 tick. *)
Theorem get_timestep_bin_log2 dti :
  0 <= dti < 2 ^ 32 ->
  (2 <= dti ->
   get_timestep_bin dti = Z.log2 dti /\
   2 ^ get_timestep_bin dti <= dti < 2 ^ (get_timestep_bin dti + 1)) /\
  (get_timestep_bin dti < 1 <-> dti <= 1).
Proof.
  intros Hd.
  assert (Hlog : 2 <= dti -> get_timestep_bin dti = Z.log2 dti).
  { intros H2. unfold get_timestep_bin.
    destruct (Z.eqb_spec dti 0); [lia|]. destruct (Z.eqb_spec dti 1); [lia|].
    rewrite shift_loop_log2 by (simpl; lia). lia. }
  split.
  - intros H2. rewrite (Hlog H2). split; [reflexivity|].
    pose proof (Z.log2_spec dti ltac:(lia)). lia.
  - split.
    + intros Hb. destruct (Z.le_gt_cases dti 1) as [|Hgt]; [assumption|].
      rewrite Hlog in Hb by lia.
      assert (1 <= Z.log2 dti) by (apply Z.log2_le_pow2; lia). lia.
    + intros Hle. assert (dti = 0 \/ dti = 1) as [->| ->] by lia; cbn; lia.
Qed.

Lemma get_timestep_bin_log2_witness :
  (2 <= 1000 ->
   get_timestep_bin 1000 = Z.log2 1000 /\
   2 ^ get_timestep_bin 1000 <= 1000 < 2 ^ (get_timestep_bin 1000 + 1)) /\
  (get_timestep_bin 1000 < 1 <-> 1000 <= 1).
Proof. apply (get_timestep_bin_log2 1000). lia. Defined.

(** ** The active-bin table *)

Lemma pow2_divide m n : 0 <= m <= n -> (2 ^ m | 2 ^ n).
Proof.
  intros H. exists (2 ^ (n - m)). rewrite <- Z.pow_add_r by lia. f_equal. lia.
Qed.

Section ActiveBinFacts.
Context {E : TimestepEnv}.

Lemma update_active_timebins_spec next_kick S :
  1 <= TIMEBINS <= 31 ->
  Z.of_nat (length (TimeBinActive S)) = TIMEBINS ->
  TIMEBINS <= Z.of_nat (length (TimeBinCount S)) ->
  0 <= next_kick ->
  exists S' num,
    update_active_timebins next_kick S = Some (S', num) /\
    Z.of_nat (length (TimeBinActive S')) = TIMEBINS /\
    arr_get (TimeBinActive S') 0 = Some 1 /\
    (forall n, 1 <= n < TIMEBINS ->
       arr_get (TimeBinActive S') n
       = Some (if next_kick mod 2 ^ n =? 0 then 1 else 0)) /\
    (forall m n, 0 <= m <= n -> n < TIMEBINS ->
       arr_get (TimeBinActive S') n = Some 1 ->
       arr_get (TimeBinActive S') m = Some 1) /\
    S' = set_TimeBinActive S (TimeBinActive S').
Proof.
  intros HT Hact Hcnt Hk. unfold update_active_timebins.
  destruct (arr_get_is_Some (TimeBinCount S) 0 ltac:(lia)) as [c0 Hc0].
  rewrite Hc0. cbn [mbind option_bind].
  pose proof (arr_set_Some (TimeBinActive S) 0 1 ltac:(lia)) as Ha0.
  rewrite Ha0. cbn [mbind option_bind].
  match goal with |- context [for_loop ?trips ?lo ?body ?b0] =>
    destruct (for_loop_total
      (fun k (acc : list Z * Z) =>
         length acc.1 = length (TimeBinActive S) /\
         arr_get acc.1 0 = Some 1 /\
         forall n, 1 <= n < k ->
           arr_get acc.1 n = Some (if next_kick mod 2 ^ n =? 0 then 1 else 0))
      trips lo body b0) as ([act num] & Hrun & Hlen & H0 & Htab)
  end.
  - cbn [fst]. split; [apply length_insert|].
    split; [eapply arr_get_set_eq, Ha0|]. intros n Hn. lia.
  - intros k [act num] Hkr (Hlen & H0 & Htab). cbn [fst] in *.
    rewrite shl1_pow2 by lia.
    pose proof (pow2_bound k ltac:(lia)) as Hp.
    rewrite (uint_of_small (2 ^ k)) by lia.
    assert (Hstep : forall v act',
              arr_set act k v = Some act' ->
              v = (if next_kick mod 2 ^ k =? 0 then 1 else 0) ->
              length act' = length (TimeBinActive S) /\
              arr_get act' 0 = Some 1 /\
              forall n, 1 <= n < k + 1 ->
                arr_get act' n
                = Some (if next_kick mod 2 ^ n =? 0 then 1 else 0)).
    { intros v act' Hset Hv.
      split; [rewrite (arr_set_length _ _ _ _ Hset); exact Hlen|].
      split; [rewrite (arr_get_set_ne _ _ _ 0 _ Hset) by lia; exact H0|].
      intros n Hn. destruct (Z.eq_dec n k) as [->|Hne].
      - rewrite (arr_get_set_eq _ _ _ _ Hset). now rewrite Hv.
      - rewrite (arr_get_set_ne _ _ _ n _ Hset) by lia. apply Htab. lia. }
    destruct (next_kick mod 2 ^ k =? 0) eqn:Hdiv.
    + pose proof (arr_set_Some act k 1 ltac:(lia)) as Hset.
      rewrite Hset. cbn [mbind option_bind].
      destruct (arr_get_is_Some (TimeBinCount S) k ltac:(lia)) as [c Hc].
      rewrite Hc. cbn [mbind option_bind].
      eexists. split; [reflexivity|]. cbn [fst]. now apply (Hstep 1).
    + pose proof (arr_set_Some act k 0 ltac:(lia)) as Hset.
      rewrite Hset. cbn [mbind option_bind].
      eexists. split; [reflexivity|]. cbn [fst]. now apply (Hstep 0).
  - rewrite Hrun. cbn [mbind option_bind]. cbn [fst] in *.
    replace (1 + Z.of_nat (Z.to_nat (TIMEBINS - 1))) with TIMEBINS in Htab
      by lia.
    exists (set_TimeBinActive S act), num. split; [reflexivity|]. simpl.
    split; [lia|]. split; [exact H0|]. split; [exact Htab|].
    split; [|reflexivity].
    intros m n Hmn Hn Hon.
    destruct (Z.eq_dec m 0) as [->|Hm]; [exact H0|].
    rewrite Htab in Hon |- * by lia.
    destruct (Z.eqb_spec (next_kick mod 2 ^ n) 0) as [Hz|]; [|discriminate].
    pose proof (pow2_bound n ltac:(lia)). pose proof (pow2_bound m ltac:(lia)).
    apply Z.mod_divide in Hz; [|lia].
    assert (Hd : (2 ^ m | next_kick))
      by (eapply Z.divide_trans; [apply (pow2_divide m n); lia|exact Hz]).
    apply Z.mod_divide in Hd; [|lia]. rewrite Hd. reflexivity.
Qed.

(** X2: [update_active_timebins(next_kick)] returns on a registry of
    1 to 31 bins; it marks bin 0 active and bin [n >= 1] active exactly
    when [2^n] divides [next_kick], and leaves everything else alone.
    So the active bins are downward closed: below an active bin every
    bin is active. *)
Theorem update_active_timebins_table next_kick S :
  1 <= TIMEBINS <= 31 ->
  Z.of_nat (length (TimeBinActive S)) = TIMEBINS ->
  TIMEBINS <= Z.of_nat (length (TimeBinCount S)) ->
  0 <= next_kick ->
  exists S' num,
    update_active_timebins next_kick S = Some (S', num) /\
    arr_get (TimeBinActive S') 0 = Some 1 /\
    (forall n, 1 <= n < TIMEBINS ->
       arr_get (TimeBinActive S') n
       = Some (if next_kick mod 2 ^ n =? 0 then 1 else 0)) /\
    (forall m n, 0 <= m <= n -> n < TIMEBINS ->
       arr_get (TimeBinActive S') n = Some 1 ->
       arr_get (TimeBinActive S') m = Some 1) /\
    S' = set_TimeBinActive S (TimeBinActive S').
Proof.
  intros HT Hact Hcnt Hk.
  destruct (update_active_timebins_spec next_kick S HT Hact Hcnt Hk)
    as (S' & num & Hrun & _ & H0 & Htab & Hdown & Hframe).
  exists S', num. auto.
Qed.

End ActiveBinFacts.

Lemma update_active_timebins_table_witness :
  exists S' num,
    update_active_timebins (E := ref_env) 16 (ex_state 0 16 [] [])
    = Some (S', num) /\
    arr_get (TimeBinActive S') 4 = Some 1 /\
    arr_get (TimeBinActive S') 5 = Some 0.
Proof.
  destruct (update_active_timebins_table (E := ref_env) 16
              (ex_state 0 16 [] []))
    as (S' & num & Hrun & _ & Htab & _);
    [simpl; lia | reflexivity | simpl; lia | lia |].
  exists S', num. split; [exact Hrun|].
  split; [apply (Htab 4); simpl; lia | apply (Htab 5); simpl; lia].
Defined.

(** ** Setting and reading the active-bin mask *)

Lemma land_bit_mask b mask :
  0 <= b -> (Z.land (Z.shiftl 1 b) mask =? 0) = negb (Z.testbit mask b).
Proof.
  intros Hb. rewrite Z.shiftl_1_l.
  assert (Hl : Z.land (2 ^ b) mask = if Z.testbit mask b then 2 ^ b else 0).
  { apply Z.bits_inj'. intros n Hn.
    rewrite Z.land_spec, Z.pow2_bits_eqb by lia.
    destruct (Z.eqb_spec b n) as [->|Hne].
    - destruct (Z.testbit mask n) eqn:Ht.
      + now rewrite Z.pow2_bits_eqb, Z.eqb_refl by lia.
      + now rewrite Z.bits_0.
    - simpl. destruct (Z.testbit mask b).
      + rewrite Z.pow2_bits_eqb by lia. symmetry. now apply Z.eqb_neq.
      + now rewrite Z.bits_0. }
  rewrite Hl. pose proof (Z.pow_pos_nonneg 2 b ltac:(lia) Hb).
  destruct (Z.testbit mask b); simpl; [apply Z.eqb_neq; lia|reflexivity].
Qed.

Section MaskFacts.
Context {E : TimestepEnv}.

(** X3: after [set_timebin_active(binmask)], [is_timebin_active(b)]
    is 1 or 0 as bit [b] of the mask is set or not, for every bin
    [0 <= b < TIMEBINS]; outside the registry the read is out of
    bounds. *)
Theorem set_timebin_active_read binmask S b :
  is_timebin_active (set_timebin_active binmask S) b =
  if (0 <=? b) && (b <? TIMEBINS)
  then Some (if Z.testbit binmask b then 1 else 0)
  else None.
Proof.
  unfold is_timebin_active, set_timebin_active, arr_get. simpl.
  destruct (Z.ltb_spec b 0) as [Hneg|Hpos].
  - destruct (Z.leb_spec 0 b); [lia|reflexivity].
  - destruct (Z.leb_spec 0 b); [|lia]. simpl.
    rewrite list_lookup_fmap.
    destruct (Z.ltb_spec b TIMEBINS) as [Hlt|Hge].
    + rewrite lookup_seqZ_lt by lia. simpl.
      rewrite Z2Nat.id, land_bit_mask, Z.add_0_l by lia.
      destruct (Z.testbit binmask b); reflexivity.
    + rewrite lookup_seqZ_ge by lia. reflexivity.
Qed.

End MaskFacts.

(** ** The active list *)

Lemma count_particle_active act i p active cnt cntT active' cnt' cntT' a :
  arr_get act (TimeBin p) = Some a ->
  count_particle act i p (active, cnt, cntT) = Some (active', cnt', cntT') ->
  active' = if a =? 0 then active else active ++ [i].
Proof.
  intros Ha. unfold count_particle. rewrite Ha. cbn [mbind option_bind].
  intros H. simplify_option_eq. reflexivity.
Qed.

Lemma count_particle_bin act i p acc acc' :
  count_particle act i p acc = Some acc' ->
  is_Some (arr_get act (TimeBin p)).
Proof.
  destruct acc as [[active cnt] cntT]. unfold count_particle.
  destruct (arr_get act (TimeBin p)); [eauto|discriminate].
Qed.

Section ActiveListFacts.
Context {E : TimestepEnv}.

(** What [rebuild_activelist] returns, when it returns: the indices of
    the particles in active bins, in increasing order, and nothing
    changed but the counters and the list. *)
Lemma rebuild_activelist_active S S' :
  rebuild_activelist S = Some S' ->
  ActiveParticle S' =
    List.filter (in_active_bin (TimeBinActive S) (P S)) (seqZ 0 (NumPart S)) /\
  P S' = P S /\ TimeBinActive S' = TimeBinActive S /\ All S' = All S /\
  PM_Ti_step S' = PM_Ti_step S /\ PM_Ti_start S' = PM_Ti_start S /\
  kicks S' = kicks S /\ shared_writes S' = shared_writes S.
Proof.
  unfold rebuild_activelist. intros Hrun.
  match type of Hrun with context [for_loop ?trips ?lo ?body ?b0] =>
    destruct (for_loop trips lo body b0) as [[[active cnt] cntT]|] eqn:Hloop;
      [|discriminate];
    pose proof (for_loop_partial
      (fun k (acc : list Z * list Z * list (list Z)) =>
         acc.1.1 =
         List.filter (in_active_bin (TimeBinActive S) (P S)) (seqZ 0 k))
      trips lo body b0 (active, cnt, cntT)) as Hinv
  end.
  cbn [mbind option_bind] in Hrun. injection Hrun as <-. simpl.
  split; [|repeat split].
  unfold NumPart. apply Hinv; [reflexivity| |exact Hloop].
  intros k [[act1 cnt1] cntT1] [[act2 cnt2] cntT2] Hk Hacc Hbody.
  clear Hinv Hloop. cbn [fst snd] in *. cbn beta in Hbody.
  destruct (arr_get (P S) k) as [p|] eqn:Hp; [|discriminate].
  cbn [mbind option_bind] in Hbody.
  destruct (count_particle_bin _ _ _ _ _ Hbody) as [a Ha].
  rewrite (count_particle_active _ _ _ _ _ _ _ _ _ _ Ha Hbody).
  assert (Hone : seqZ (0 + k) 1 = [k])
    by (rewrite seqZ_cons, seqZ_nil by lia; f_equal; lia).
  rewrite (seqZ_app 0 k 1), List.filter_app, Hone by lia.
  cbn [List.filter]. rewrite <- Hacc. unfold in_active_bin. rewrite Hp, Ha.
  destruct (a =? 0); simpl; [now rewrite app_nil_r|reflexivity].
Qed.


(** X5: [init_timebins] returns on a registry of 1 to 31 bins; it
    leaves every bin active, the PM step empty at tick 0 and the clock
    at tick 0, so that tick 0 is a PM boundary and the first
    [rebuild_activelist] lists every particle. *)
Theorem init_timebins_all_active S :
  1 <= TIMEBINS <= 31 ->
  Z.of_nat (length (TimeBinActive S)) = TIMEBINS ->
  TIMEBINS <= Z.of_nat (length (TimeBinCount S)) ->
  particles_in_range S ->
  NumPart S <= INT_MAX ->
  exists S' S'',
    init_timebins S = Some S' /\
    (forall b, 0 <= b < TIMEBINS -> is_timebin_active S' b = Some 1) /\
    PM_Ti_start S' = 0 /\ PM_Ti_step S' = 0 /\ Ti_Current (All S') = 0 /\
    is_PM_timestep S' (uint_of (Ti_Current (All S'))) = true /\
    rebuild_activelist S' = Some S'' /\
    ActiveParticle S'' = seqZ 0 (NumPart S).
Proof.
  intros HT Hact Hcnt Hpart Hnum. unfold init_timebins.
  destruct (update_active_timebins_spec 0 (set_PM_Ti S 0 0) HT Hact Hcnt
              ltac:(lia)) as (S1 & num & Hrun & Hlen & H0 & Htab & _ & Hframe).
  rewrite Hrun. cbn [mbind option_bind fst].
  set (S' := set_All S1 (set_Ti_Current (All S1) 0)).
  assert (Hall : forall b, 0 <= b < TIMEBINS ->
            arr_get (TimeBinActive S') b = Some 1).
  { intros b Hb. simpl. destruct (Z.eq_dec b 0) as [->|]; [exact H0|].
    rewrite Htab by lia. reflexivity. }
  assert (HP' : P S' = P S) by (subst S'; rewrite Hframe; reflexivity).
  destruct (rebuild_activelist_accounting S') as (S'' & Hreb & _);
    [lia | exact Hlen | unfold particles_in_range; rewrite HP'; exact Hpart
    | unfold NumPart; rewrite HP'; exact Hnum |].
  exists S', S''. split; [reflexivity|]. split; [exact Hall|].
  split; [subst S'; rewrite Hframe; reflexivity|].
  split; [subst S'; rewrite Hframe; reflexivity|].
  split; [reflexivity|].
  split; [subst S'; rewrite Hframe; reflexivity|].
  split; [exact Hreb|].
  destruct (rebuild_activelist_active S' S'' Hreb) as (-> & _).
  unfold NumPart. rewrite HP'.
  assert (Hin : forall i, In i (seqZ 0 (Z.of_nat (length (P S)))) ->
            in_active_bin (TimeBinActive S') (P S) i = true).
  { intros i Hi%list_elem_of_In%elem_of_seqZ. unfold in_active_bin.
    destruct (arr_get_is_Some (P S) i ltac:(lia)) as [p Hp]. rewrite Hp.
    pose proof (Forall_arr_get _ _ _ _ Hpart Hp) as [Hbin _].
    rewrite Hall by exact Hbin. reflexivity. }
  revert Hin. generalize (seqZ 0 (Z.of_nat (length (P S)))).
  intros l Hl. induction l as [|x l IH]; [reflexivity|]. cbn [List.filter].
  rewrite (Hl x) by now left. f_equal. apply IH. intros i Hi. apply Hl.
  now right.
Qed.

End ActiveListFacts.


Lemma init_timebins_all_active_witness :
  exists S' S'',
    init_timebins (E := ref_env)
      (ex_state 0 16 [ex_halo 3 8 1; ex_gas 4 0 1 0] []) = Some S' /\
    rebuild_activelist (E := ref_env) S' = Some S'' /\
    ActiveParticle S'' = [0; 1].
Proof.
  destruct (init_timebins_all_active (E := ref_env)
              (ex_state 0 16 [ex_halo 3 8 1; ex_gas 4 0 1 0] []))
    as (S' & S'' & Hrun & _ & _ & _ & _ & _ & Hreb & HA);
    [ simpl; lia | reflexivity | simpl; lia
    | repeat constructor; simpl; lia | vm_compute; discriminate |].
  exists S', S''. split; [exact Hrun|]. split; [exact Hreb|].
  rewrite HA. reflexivity.
Defined.

(** ** find_next_kick with bin 0 empty *)

Lemma land_snapshot_bits a T :
  0 <= T <= 32 -> 0 <= a < 2 ^ 32 ->
  Z.land a (uint_of (Z.lnot (2 ^ T - 1))) = a - a mod 2 ^ T.
Proof.
  intros HT Ha.
  pose proof (Z.pow_pos_nonneg 2 T ltac:(lia) ltac:(lia)) as HpT.
  pose proof (Z.pow_pos_nonneg 2 (32 - T) ltac:(lia) ltac:(lia)) as HpT'.
  assert (Hs : 2 ^ 32 = 2 ^ (32 - T) * 2 ^ T)
    by (rewrite <- Z.pow_add_r by lia; f_equal; lia).
  assert (Hm : uint_of (Z.lnot (2 ^ T - 1)) = Z.shiftl (Z.ones (32 - T)) T).
  { rewrite Z.shiftl_mul_pow2, Z.ones_equiv by lia.
    unfold Z.lnot, uint_of.
    replace (Z.pred (- (2 ^ T - 1))) with (- 2 ^ T) by lia.
    symmetry. apply (Z.mod_unique _ _ (-1)); [left; nia|lia]. }
  assert (Hr : a - a mod 2 ^ T = Z.shiftl (Z.shiftr a T) T).
  { rewrite Z.shiftl_mul_pow2, Z.shiftr_div_pow2 by lia.
    pose proof (Z.div_mod a (2 ^ T) ltac:(lia)). lia. }
  rewrite Hm, Hr. apply Z.bits_inj'. intros n Hn.
  rewrite Z.land_spec, !Z.shiftl_spec by lia.
  destruct (Z.lt_ge_cases n T) as [Hlt|Hge].
  - rewrite !(Z.testbit_neg_r _ (n - T)) by lia. apply andb_false_r.
  - rewrite Z.shiftr_spec by lia. replace (n - T + T) with n by lia.
    destruct (Z.lt_ge_cases n 32) as [H32|H32].
    + rewrite Z.ones_spec_low by lia. apply andb_true_r.
    + rewrite Z.ones_spec_high by lia. rewrite andb_false_r.
      destruct (Z.eq_dec a 0) as [->|]; [now rewrite Z.bits_0|].
      symmetry. apply Z.bits_above_log2; [lia|].
      apply Z.lt_le_trans with 32; [|lia]. apply Z.log2_lt_pow2; lia.
Qed.

Lemma land_tick_bits a T :
  0 <= T <= 31 -> Z.land a (uint_of (2 ^ T - 1)) = a mod 2 ^ T.
Proof.
  intros HT.
  assert (2 ^ T <= 2 ^ 31) by (apply Z.pow_le_mono_r; lia).
  pose proof (Z.pow_pos_nonneg 2 T ltac:(lia) ltac:(lia)).
  rewrite uint_of_small by lia.
  replace (2 ^ T - 1) with (Z.ones T) by (rewrite Z.ones_equiv; lia).
  apply Z.land_ones. lia.
Qed.

(** The first multiple of [d] after [x] is the least one. *)
Lemma next_multiple_least x d q :
  0 < d -> x < q * d -> x / d * d + d <= q * d.
Proof.
  intros Hd Hx.
  assert (x / d < q) by (apply Z.div_lt_upper_bound; lia). nia.
Qed.

Lemma next_multiple_after x d : 0 < d -> x < x / d * d + d <= x + d.
Proof.
  intros Hd. pose proof (Z.div_mod x d ltac:(lia)).
  pose proof (Z.mod_pos_bound x d Hd). lia.
Qed.

Lemma next_multiple_mono x m n :
  0 <= m <= n -> x / 2 ^ m * 2 ^ m + 2 ^ m <= x / 2 ^ n * 2 ^ n + 2 ^ n.
Proof.
  intros H.
  pose proof (Z.pow_pos_nonneg 2 m ltac:(lia) ltac:(lia)) as Hd.
  pose proof (Z.pow_pos_nonneg 2 (n - m) ltac:(lia) ltac:(lia)) as He.
  assert (Hs : 2 ^ n = 2 ^ (n - m) * 2 ^ m)
    by (rewrite <- Z.pow_add_r by lia; f_equal; lia).
  rewrite Hs. generalize dependent (2 ^ m). generalize dependent (2 ^ (n - m)).
  intros e He d Hd _.
  pose proof (next_multiple_after x (e * d) ltac:(nia)) as Haft.
  pose proof (next_multiple_least x d ((x / (e * d) + 1) * e) Hd ltac:(nia)).
  nia.
Qed.

Lemma next_multiple_bound x m T :
  0 <= m <= T -> x < 2 ^ T -> x / 2 ^ m * 2 ^ m + 2 ^ m <= 2 ^ T.
Proof.
  intros H Hx.
  pose proof (Z.pow_pos_nonneg 2 m ltac:(lia) ltac:(lia)).
  assert (Hs : 2 ^ T = 2 ^ (T - m) * 2 ^ m)
    by (rewrite <- Z.pow_add_r by lia; f_equal; lia).
  rewrite Hs. apply next_multiple_least; [lia|]. now rewrite <- Hs.
Qed.

Section NextKickFacts.
Context {E : TimestepEnv}.

(** The bin loop of [find_next_kick], with bin 0 empty: [m] is the
    smallest populated bin, or [TIMEBINS] when every bin is empty. *)
Lemma find_next_kick_local_spec S Ti T m :
  TIMEBASE = 2 ^ T -> 1 <= T <= 30 ->
  1 <= TIMEBINS <= T + 1 ->
  TIMEBINS <= Z.of_nat (length (TimeBinCount S)) ->
  arr_get (TimeBinCount S) 0 = Some 0 ->
  0 <= Ti -> Ti + 2 ^ T < 2 ^ 31 ->
  1 <= m <= TIMEBINS ->
  (forall n, 1 <= n < m -> arr_get (TimeBinCount S) n = Some 0) ->
  (m < TIMEBINS -> exists c, arr_get (TimeBinCount S) m = Some c /\ c <> 0) ->
  find_next_kick_local S Ti =
  Some (if m <? TIMEBINS then Ti / 2 ^ m * 2 ^ m + 2 ^ m
        else Ti - Ti mod 2 ^ T + 2 ^ T).
Proof.
  intros HTB HT Hbins Hlen Hc0 HTi Hfit Hm Hempty Hpop.
  pose proof (Z.pow_pos_nonneg 2 T ltac:(lia) ltac:(lia)) as HpT.
  assert (HpT30 : 2 ^ T <= 2 ^ 30) by (apply Z.pow_le_mono_r; lia).
  pose proof (Z.mod_pos_bound Ti (2 ^ T) HpT) as Hlow.
  pose proof (Z.mod_le Ti (2 ^ T) HTi HpT) as Hlow'.
  set (low := Ti mod 2 ^ T) in *.
  unfold find_next_kick_local. rewrite Hc0. cbn [mbind option_bind].
  change (0 =? 0) with true. cbn iota. rewrite HTB.
  rewrite land_snapshot_bits, land_tick_bits by lia. fold low.
  rewrite (int_of_small (Ti - low)) by lia.
  match goal with |- context [for_loop ?trips ?lo ?body ?b0] =>
    destruct (for_loop_total
      (fun k t => t = if k <=? m then 2 ^ T
                      else low / 2 ^ m * 2 ^ m + 2 ^ m)
      trips lo body b0) as (t & Hrun & Ht)
  end.
  - destruct (Z.leb_spec 1 m); [reflexivity|lia].
  - intros k t Hk ->.
    destruct (arr_get_is_Some (TimeBinCount S) k ltac:(lia)) as [c Hc].
    rewrite Hc. cbn [mbind option_bind].
    rewrite shl1_pow2 by lia.
    pose proof (pow2_bound k ltac:(lia)) as Hdt.
    rewrite (uint_of_small (2 ^ k)) by lia.
    pose proof (next_multiple_after low (2 ^ k) ltac:(lia)) as Haft.
    pose proof (next_multiple_bound low k T ltac:(lia) ltac:(lia)) as Hbnd.
    assert (0 <= low / 2 ^ k * 2 ^ k)
      by (apply Z.mul_nonneg_nonneg; [apply Z.div_pos|]; lia).
    rewrite (uint_of_small (low / 2 ^ k * 2 ^ k)) by lia.
    rewrite (uint_of_small (low / 2 ^ k * 2 ^ k + 2 ^ k)) by lia.
    destruct (Z.leb_spec k m) as [Hle|Hgt].
    + rewrite (uint_of_small (2 ^ T)) by lia.
      destruct (Z.eq_dec k m) as [->|Hne].
      * destruct (Hpop ltac:(lia)) as (c' & Hc' & Hne).
        rewrite Hc in Hc'. injection Hc' as <-.
        destruct (Z.eqb_spec c 0) as [|_]; [contradiction|].
        destruct (Z.leb_spec (m + 1) m); [lia|].
        destruct (Z.ltb_spec (low / 2 ^ m * 2 ^ m + 2 ^ m) (2 ^ T)).
        -- eexists. split; [reflexivity|]. apply int_of_small. lia.
        -- eexists. split; [reflexivity|]. lia.
      * rewrite (Hempty k) in Hc by lia. injection Hc as <-.
        change (0 =? 0) with true. cbn iota.
        eexists. split; [reflexivity|].
        destruct (Z.leb_spec (k + 1) m); [reflexivity|lia].
    + pose proof (next_multiple_mono low m k ltac:(lia)) as Hmono.
      pose proof (next_multiple_after low (2 ^ m)
                    ltac:(apply Z.pow_pos_nonneg; lia)) as Haftm.
      rewrite (uint_of_small (low / 2 ^ m * 2 ^ m + 2 ^ m)) by lia.
      destruct (Z.leb_spec (k + 1) m); [lia|].
      destruct (c =? 0); [eauto|].
      destruct (Z.ltb_spec (low / 2 ^ k * 2 ^ k + 2 ^ k)
                  (low / 2 ^ m * 2 ^ m + 2 ^ m)); [lia|eauto].
  - rewrite Hrun. cbn [mbind option_bind]. subst t. f_equal.
    replace (1 + Z.of_nat (Z.to_nat (TIMEBINS - 1))) with TIMEBINS by lia.
    destruct (Z.leb_spec TIMEBINS m) as [Hall|Hsome];
      destruct (Z.ltb_spec m TIMEBINS); try lia.
    + rewrite int_of_small by lia. lia.
    + pose proof (next_multiple_after low (2 ^ m)
                    ltac:(apply Z.pow_pos_nonneg; lia)) as Haftm.
      pose proof (next_multiple_bound low m T ltac:(lia) ltac:(lia)).
      rewrite int_of_small by lia.
      (* the snapshot part is a multiple of the bin step *)
      pose proof (Z.pow_pos_nonneg 2 m ltac:(lia) ltac:(lia)).
      assert (Hs : 2 ^ T = 2 ^ (T - m) * 2 ^ m)
        by (rewrite <- Z.pow_add_r by lia; f_equal; lia).
      pose proof (Z.div_mod Ti (2 ^ T) ltac:(lia)) as HdT. fold low in HdT.
      set (A := Ti / 2 ^ T) in *. rewrite Hs in HdT.
      assert (Hq : Ti / 2 ^ m = A * 2 ^ (T - m) + low / 2 ^ m).
      { rewrite HdT.
        replace (2 ^ (T - m) * 2 ^ m * A + low)
          with (low + A * 2 ^ (T - m) * 2 ^ m) by ring.
        rewrite Z.div_add by lia. lia. }
      rewrite Hq. lia.
Qed.

(** X6: with bin 0 empty, [find_next_kick] returns the first multiple
    of [2^m] after [Ti_Current], for the smallest populated bin [m]; the
    snapshot bits of the tick are carried over.  The returned tick is
    later than the current one by at most [2^m], and bin [m] is active
    there.  With every bin empty it returns the end of the timeline,
    [TIMEBASE] past the snapshot bits. *)
Theorem find_next_kick_smallest_bin S Ti T :
  TIMEBASE = 2 ^ T -> 1 <= T <= 30 ->
  1 <= TIMEBINS <= T + 1 ->
  TIMEBINS <= Z.of_nat (length (TimeBinCount S)) ->
  arr_get (TimeBinCount S) 0 = Some 0 ->
  0 <= Ti -> Ti + 2 ^ T < 2 ^ 31 ->
  (forall m c,
     1 <= m < TIMEBINS ->
     arr_get (TimeBinCount S) m = Some c -> c <> 0 ->
     (forall n, 1 <= n < m -> arr_get (TimeBinCount S) n = Some 0) ->
     exists next,
       find_next_kick S Ti = Some next /\
       next = Ti / 2 ^ m * 2 ^ m + 2 ^ m /\
       Ti < next <= Ti + 2 ^ m /\ next mod 2 ^ m = 0) /\
  ((forall n, 1 <= n < TIMEBINS -> arr_get (TimeBinCount S) n = Some 0) ->
   find_next_kick S Ti = Some (Ti - Ti mod 2 ^ T + 2 ^ T)).
Proof.
  intros HTB HT Hbins Hlen Hc0 HTi Hfit.
  pose proof (Z.pow_pos_nonneg 2 T ltac:(lia) ltac:(lia)) as HpT.
  pose proof (Z.mod_pos_bound Ti (2 ^ T) HpT).
  pose proof (Z.mod_le Ti (2 ^ T) HTi HpT).
  split.
  - intros m c Hm Hc Hne Hempty.
    pose proof (Z.pow_pos_nonneg 2 m ltac:(lia) ltac:(lia)) as Hpm.
    assert (2 ^ m <= 2 ^ T) by (apply Z.pow_le_mono_r; lia).
    pose proof (next_multiple_after Ti (2 ^ m) Hpm).
    eexists. unfold find_next_kick.
    rewrite (find_next_kick_local_spec S Ti T m) by (eauto; lia).
    destruct (Z.ltb_spec m TIMEBINS); [|lia]. simpl.
    rewrite uint_of_small by lia.
    split; [reflexivity|]. split; [reflexivity|]. split; [lia|].
    replace (Ti / 2 ^ m * 2 ^ m + 2 ^ m) with ((Ti / 2 ^ m + 1) * 2 ^ m)
      by ring.
    apply Z.mod_mul. lia.
  - intros Hempty. unfold find_next_kick.
    rewrite (find_next_kick_local_spec S Ti T TIMEBINS)
      by (eauto; try lia; intros n Hn; apply Hempty; lia).
    rewrite Z.ltb_irrefl. simpl. rewrite uint_of_small by lia. reflexivity.
Qed.

End NextKickFacts.

Lemma find_next_kick_smallest_bin_witness :
  find_next_kick (E := ref_env) ex_two_bins 8 = Some 16.
Proof.
  destruct (proj1 (find_next_kick_smallest_bin (E := ref_env)
                     ex_two_bins 8 29 eq_refl ltac:(lia) ltac:(simpl; lia)
                     ltac:(vm_compute; discriminate) eq_refl ltac:(lia)
                     ltac:(lia))
              3 1 ltac:(simpl; lia) eq_refl ltac:(lia))
    as (next & Hrun & -> & _).
  - intros n Hn. assert (n = 1 \/ n = 2) as [->| ->] by lia; reflexivity.
  - exact Hrun.
Defined.

(** ** The kick loop as a whole *)

Section KickLoopFrame.
Context {E : TimestepEnv}.

(** An iteration of the kick loop leaves the parameters, the active
    list, the active-bin table and the PM step alone. *)
Lemma advance_particle_frame do_half_kick new_PM ti_min pa S bad S' bad' :
  advance_particle do_half_kick new_PM ti_min pa (S, bad) = Some (S', bad') ->
  All S' = All S /\ ActiveParticle S' = ActiveParticle S /\
  TimeBinActive S' = TimeBinActive S /\
  PM_Ti_step S' = PM_Ti_step S /\ PM_Ti_start S' = PM_Ti_start S.
Proof.
  unfold advance_particle. cbn [fst snd]. intros H.
  destruct (arr_get (ActiveParticle S) pa) as [i|] eqn:Hi; [|discriminate].
  cbn [mbind option_bind] in H.
  match type of H with (?d ≫= _) = _ => destruct d as [raw|] eqn:Hraw end;
    [|discriminate].
  cbn [mbind option_bind] in H.
  set (dti0 := int_of (round_down_power_of_two raw)) in *.
  set (bin0 := get_timestep_bin (uint_of dti0)) in *.
  set (S0 := if bin0 <? 1 then _ else S) in *.
  assert (HF0 : P S0 = P S /\ All S0 = All S /\
                ActiveParticle S0 = ActiveParticle S /\
                TimeBinActive S0 = TimeBinActive S /\
                PM_Ti_step S0 = PM_Ti_step S /\
                PM_Ti_start S0 = PM_Ti_start S)
    by (subst S0; destruct (bin0 <? 1); repeat split).
  destruct HF0 as (HP0 & HA0 & HL0 & HT0 & Hs0 & Hb0).
  rewrite HP0, HT0 in H.
  destruct (arr_get (P S) i) as [p|] eqn:Hp; [|discriminate].
  cbn [mbind option_bind] in H.
  destruct (guarded_bin _ _ _ _) as [r|] eqn:Hr; [|discriminate].
  cbn [mbind option_bind] in H.
  destruct (move_to_bin pa i p r.1 S0) as [S1|] eqn:Hmove; [|discriminate].
  cbn [mbind option_bind] in H.
  rewrite <- HP0 in Hp.
  destruct (move_to_bin_particle _ _ _ _ _ _ Hp Hmove)
    as (Hp1 & _ & _ & HA1 & _ & HT1 & HL1 & Hs1 & Hb1).
  rewrite Hp1 in H. cbn [mbind option_bind] in H.
  destruct (arr_set (P S1) i _) as [ps|] eqn:Hset; [|discriminate].
  cbn [mbind option_bind] in H.
  destruct (do_the_short_range_kick _ _ _ _) as [S2|] eqn:Hkick;
    [|discriminate].
  cbn [mbind option_bind] in H. injection H as <- <-.
  pose proof (arr_get_set_eq _ _ _ _ Hset) as Hp2.
  destruct (do_the_short_range_kick_inv i _ _ (set_P S1 ps) S2 _ Hp2 Hkick)
    as (_ & _ & _ & HA3 & HT3 & HL3 & _ & _ & Hs3 & Hb3 & _).
  simpl in *. repeat split; congruence.
Qed.

(** The invariant of the kick loop: after some iterations, only
    particles of the active list have changed, no particle has changed
    its type, and each iteration has logged one short-range kick of its
    particle. *)
Lemma kick_loop_frame do_half_kick new_PM ti_min S bad0 S' bad :
  for_loop (length (ActiveParticle S)) 0
    (advance_particle do_half_kick new_PM ti_min) (S, bad0) = Some (S', bad) ->
  All S' = All S /\ ActiveParticle S' = ActiveParticle S /\
  TimeBinActive S' = TimeBinActive S /\
  PM_Ti_step S' = PM_Ti_step S /\ PM_Ti_start S' = PM_Ti_start S /\
  length (P S') = length (P S) /\
  (forall j, ~ In j (ActiveParticle S) ->
     arr_get (P S') j = arr_get (P S) j) /\
  (forall j p, arr_get (P S) j = Some p ->
     exists p', arr_get (P S') j = Some p' /\ PType p' = PType p) /\
  exists ks, kicks S' = kicks S ++ ks /\
    Forall2 (fun i k => exists t0 t1, k = ShortRangeKick i t0 t1)
      (ActiveParticle S) ks.
Proof.
  intros Hrun.
  set (Inv := (fun k (st : state * Z) =>
       All st.1 = All S /\ ActiveParticle st.1 = ActiveParticle S /\
       TimeBinActive st.1 = TimeBinActive S /\
       PM_Ti_step st.1 = PM_Ti_step S /\ PM_Ti_start st.1 = PM_Ti_start S /\
       length (P st.1) = length (P S) /\
       (forall j, ~ In j (take (Z.to_nat k) (ActiveParticle S)) ->
          arr_get (P st.1) j = arr_get (P S) j) /\
       (forall j p, arr_get (P S) j = Some p ->
          exists p', arr_get (P st.1) j = Some p' /\ PType p' = PType p) /\
       exists ks, kicks st.1 = kicks S ++ ks /\
         Forall2 (fun i k => exists t0 t1, k = ShortRangeKick i t0 t1)
           (take (Z.to_nat k) (ActiveParticle S)) ks)).
  assert (Hinv : Inv (0 + Z.of_nat (length (ActiveParticle S))) (S', bad)).
  2:{ unfold Inv in Hinv. cbn [fst] in Hinv.
      rewrite Z.add_0_l, Nat2Z.id, firstn_all in Hinv. exact Hinv. }
  apply (for_loop_partial Inv _ _ _ _ _) with (3 := Hrun); unfold Inv.
  - cbn [fst]. do 6 (split; [reflexivity|]). split; [reflexivity|].
    split; [eauto|]. exists []. split; [now rewrite app_nil_r|]. constructor.
  - intros k [St b] [St' b'] Hk
      (HA & HL & HT & Hs & Hb & Hlen & Hout & Hty & ks & Hks & Hrel) Hbody.
    cbn [fst] in *.
    destruct (advance_particle_frame _ _ _ _ _ _ _ _ Hbody)
      as (HA' & HL' & HT' & Hs' & Hb').
    destruct (advance_particle_inv _ _ _ _ _ _ _ _ Hbody)
      as (i & raw & p & r & S0 & S1 & Hi & _ & Hp & Hrest).
    cbn zeta in Hrest.
    destruct Hrest as (_ & _ & _ & _ & Hp' & Hoth & Hk' & _ & _ & _ & Hlen').
    rewrite HL in Hi.
    do 5 (split; [congruence|]). split; [congruence|].
    replace (Z.to_nat (k + 1)) with (Datatypes.S (Z.to_nat k)) by lia.
    rewrite (take_S_r _ _ i) by (apply arr_get_lookup, Hi).
    split; [|split].
    + intros j Hj. rewrite Hoth.
      * apply Hout. intros Hin. apply Hj, in_or_app. now left.
      * intros ->. apply Hj, in_or_app. right. now left.
    + intros j q Hq. destruct (Hty j q Hq) as (q' & Hq' & Htq).
      destruct (Z.eq_dec j i) as [->|Hne].
      * rewrite Hp in Hq'. injection Hq' as <-.
        eexists. split; [exact Hp'|].
        match goal with |- context [kick_particle ?A ?a ?b ?x] =>
          destruct (kick_particle_frame A a b x) as (_ & _ & ->) end.
        exact Htq.
      * exists q'. rewrite Hoth by exact Hne. auto.
    + eexists. split; [rewrite Hk', Hks, <- app_assoc; reflexivity|].
      apply Forall2_app; [exact Hrel|]. constructor; [eauto|constructor].
Qed.

(** X7: the kick loop of [advance_and_find_timesteps] changes no
    particle outside the active list and no particle's type; it logs
    one short-range kick for each entry of the active list, in order;
    and it leaves the parameters, the active list, the active-bin table
    and the PM step as they were. *)
Theorem kick_loop_touches_active_only do_half_kick new_PM ti_min S S' bad :
  for_loop (length (ActiveParticle S)) 0
    (advance_particle do_half_kick new_PM ti_min) (S, 0) = Some (S', bad) ->
  (forall j, ~ In j (ActiveParticle S) ->
     arr_get (P S') j = arr_get (P S) j) /\
  (forall j p, arr_get (P S) j = Some p ->
     exists p', arr_get (P S') j = Some p' /\ PType p' = PType p) /\
  (exists ks, kicks S' = kicks S ++ ks /\
     Forall2 (fun i k => exists t0 t1, k = ShortRangeKick i t0 t1)
       (ActiveParticle S) ks) /\
  All S' = All S /\ ActiveParticle S' = ActiveParticle S /\
  TimeBinActive S' = TimeBinActive S /\
  PM_Ti_step S' = PM_Ti_step S /\ PM_Ti_start S' = PM_Ti_start S.
Proof.
  intros Hrun.
  destruct (kick_loop_frame _ _ _ _ _ _ _ Hrun)
    as (HA & HL & HT & Hs & Hb & _ & Hout & Hty & Hks).
  auto 10.
Qed.

End KickLoopFrame.

Lemma kick_loop_touches_active_only_witness :
  exists S' bad,
    for_loop (length (ActiveParticle ex_two_bins)) 0
      (advance_particle (E := ref_env) 0 1024 (2 ^ 29)) (ex_two_bins, 0)
    = Some (S', bad) /\
    arr_get (P S') 0 = arr_get (P ex_two_bins) 0 /\
    ActiveParticle S' = [1].
Proof.
  destruct (for_loop (length (ActiveParticle ex_two_bins)) 0
              (advance_particle (E := ref_env) 0 1024 (2 ^ 29))
              (ex_two_bins, 0)) as [[S' bad]|] eqn:Hrun;
    [|vm_compute in Hrun; discriminate].
  exists S', bad. split; [reflexivity|].
  destruct (kick_loop_touches_active_only (E := ref_env) _ _ _ _ _ _ Hrun)
    as (Hout & _ & _ & _ & HL & _).
  split; [|exact HL].
  apply Hout. change (ActiveParticle ex_two_bins) with [1].
  intros [H|[]]. discriminate H.
Defined.

(** ** The PM step of advance_and_find_timesteps *)

Section PMStepFacts.
Context {E : TimestepEnv}.


(** The equalisation loop changes nothing but the log of shared
    writes. *)
Lemma equalize_timesteps_frame new_PM S S' ti_min :
  equalize_timesteps new_PM S = Some (S', ti_min) ->
  All S' = All S /\ P S' = P S /\ ActiveParticle S' = ActiveParticle S /\
  TimeBinCount S' = TimeBinCount S /\
  TimeBinCountType S' = TimeBinCountType S /\
  TimeBinActive S' = TimeBinActive S /\
  PM_Ti_step S' = PM_Ti_step S /\ PM_Ti_start S' = PM_Ti_start S /\
  kicks S' = kicks S.
Proof.
  unfold equalize_timesteps. intros H.
  destruct (arr_get (ActiveParticle S) 0) as [i0|]; [|discriminate].
  cbn [mbind option_bind] in H.
  destruct (get_timestep_ti S i0 _) as [t0|]; [|discriminate].
  cbn [mbind option_bind] in H.
  set (Inv := fun (_ : Z) (st : state * Z) =>
    All st.1 = All S /\ P st.1 = P S /\
    ActiveParticle st.1 = ActiveParticle S /\
    TimeBinCount st.1 = TimeBinCount S /\
    TimeBinCountType st.1 = TimeBinCountType S /\
    TimeBinActive st.1 = TimeBinActive S /\
    PM_Ti_step st.1 = PM_Ti_step S /\ PM_Ti_start st.1 = PM_Ti_start S /\
    kicks st.1 = kicks S).
  apply (for_loop_partial Inv _ _ _ _ _) with (3 := H); unfold Inv.
  - cbn [fst]. repeat split.
  - intros k [St t] [St' t'] _ Hst Hbody. cbn [fst] in *. cbn beta in Hbody.
    destruct (arr_get (ActiveParticle St) k) as [i|]; [|discriminate].
    cbn [mbind option_bind] in Hbody.
    destruct (get_timestep_ti St i _) as [d|]; [|discriminate].
    cbn [mbind option_bind] in Hbody.
    destruct (int_of d <? t); injection Hbody as <- <-; exact Hst.
Qed.

(** X8: a call of [advance_and_find_timesteps] first logs one
    short-range kick per active particle.  If no bad step was counted
    and the current tick ends the PM step, it then logs the long-range
    kick from the midpoint of the old PM step to the midpoint of the new
    one (to its start under [do_half_kick]) and moves the PM step on:
    [PM_start += PM_step], [PM_step = new step].  Otherwise no
    long-range kick is logged and the PM step is unchanged. *)
Theorem advance_and_find_timesteps_pm_step do_half_kick long_range_ti S S' bad :
  advance_and_find_timesteps do_half_kick long_range_ti S = Some (S', bad) ->
  let start := PM_Ti_start S in
  let step := PM_Ti_step S in
  exists ks,
    Forall2 (fun i k => exists t0 t1, k = ShortRangeKick i t0 t1)
      (ActiveParticle S) ks /\
    if (bad =? 0) && is_PM_timestep S (uint_of (Ti_Current (All S))) then
      kicks S' = kicks S ++ ks ++
        [LongRangeKick (kick_ti_u start step)
           (if do_half_kick =? 0
            then kick_ti_u (uint_of (start + step)) (int_of long_range_ti)
            else uint_of (start + step))] /\
      PM_Ti_start S' = uint_of (start + step) /\
      PM_Ti_step S' = uint_of long_range_ti
    else
      kicks S' = kicks S ++ ks /\
      PM_Ti_start S' = start /\ PM_Ti_step S' = step.
Proof.
  unfold advance_and_find_timesteps. intros H. cbn zeta.
  set (boundary := is_PM_timestep S (uint_of (Ti_Current (All S)))) in *.
  set (new_PM := if boundary then int_of long_range_ti
                 else int_of (PM_Ti_step S)) in *.
  match type of H with (?d ≫= _) = _ =>
    destruct d as [[S1 tmin]|] eqn:Heq end; [|discriminate].
  cbn [mbind option_bind fst snd] in H.
  assert (HF1 : All S1 = All S /\ ActiveParticle S1 = ActiveParticle S /\
                PM_Ti_step S1 = PM_Ti_step S /\
                PM_Ti_start S1 = PM_Ti_start S /\ kicks S1 = kicks S).
  { destruct (ForceEqualTimesteps (All S) =? 0).
    - injection Heq as <- <-. repeat split.
    - destruct (equalize_timesteps_frame _ _ _ _ Heq)
        as (? & ? & ? & ? & ? & ? & ? & ? & ?). auto. }
  destruct HF1 as (HA1 & HL1 & Hs1 & Hb1 & Hk1).
  destruct (for_loop _ _ _ _) as [[S2 bad2]|] eqn:Hloop; [|discriminate].
  cbn [mbind option_bind fst snd] in H.
  destruct (kick_loop_frame _ _ _ _ _ _ _ Hloop)
    as (HA2 & HL2 & _ & Hs2 & Hb2 & _ & _ & _ & ks & Hks & Hrel).
  rewrite HL1 in Hrel. exists ks. split; [exact Hrel|].
  assert (Hb' : is_PM_timestep S2 (uint_of (Ti_Current (All S2))) = boundary).
  { unfold boundary, is_PM_timestep. now rewrite HA2, HA1, Hs2, Hb2, Hs1, Hb1. }
  rewrite Hb' in H.
  destruct (Z.eqb_spec bad2 0) as [->|Hbad]; cbn [negb] in H.
  - destruct boundary; injection H as <- <-; cbn [andb Z.eqb].
    + unfold do_the_long_range_kick. simpl.
      rewrite Hks, Hk1, Hs2, Hb2, Hs1, Hb1, <- app_assoc.
      split; [reflexivity|]. split; [reflexivity|].
      unfold new_PM. apply uint_of_int_of.
    + rewrite Hks, Hk1. repeat split; congruence.
  - injection H as <- <-.
    destruct (Z.eqb_spec bad2 0) as [|_]; [contradiction|]. cbn [andb].
    rewrite Hks, Hk1. repeat split; congruence.
Qed.

End PMStepFacts.

Lemma advance_and_find_timesteps_pm_step_witness :
  exists S' bad,
    advance_and_find_timesteps (E := ref_env) 0 2048
      (ex_state 0 1024 [ex_halo 10 0 (inject_Z (2 ^ 40))] [0]) = Some (S', bad) /\
    PM_Ti_start S' = 1024 /\ PM_Ti_step S' = 2048 /\
    last (kicks S') = Some (LongRangeKick 512 2048).
Proof.
  destruct (advance_and_find_timesteps (E := ref_env) 0 2048
              (ex_state 0 1024 [ex_halo 10 0 (inject_Z (2 ^ 40))] [0]))
    as [[S' bad]|] eqn:Hrun; [|vm_compute in Hrun; discriminate].
  assert (Hbad : bad = 0)
    by (vm_compute in Hrun; injection Hrun as _ <-; reflexivity).
  exists S', bad. split; [reflexivity|].
  destruct (advance_and_find_timesteps_pm_step (E := ref_env) _ _ _ _ _ Hrun)
    as (ks & _ & Hpm).
  subst bad. change ((0 =? 0) && _) with true in Hpm. cbn iota in Hpm.
  destruct Hpm as (Hk & Hstart & Hstep).
  split; [exact Hstart|]. split; [exact Hstep|].
  rewrite Hk, !app_assoc. apply last_snoc.
Defined.

(** ** Kick times chain *)

Lemma move_to_bin_bin_range pa i p bin S S' :
  move_to_bin pa i p bin S = Some S' -> bin = TimeBin p \/ 0 <= bin.
Proof.
  unfold move_to_bin. destruct (Z.eqb_spec bin (TimeBin p)); [now left|].
  unfold migrate_counts. intros H. right.
  destruct (arr_get (TimeBinCount S) (TimeBin p)); [|discriminate].
  cbn [mbind option_bind] in H.
  destruct (arr_set (TimeBinCount S) _ _) as [cnt1|]; [|discriminate].
  cbn [mbind option_bind] in H.
  destruct (arr_get cnt1 bin) eqn:Hc; [|discriminate].
  apply arr_get_Some in Hc. lia.
Qed.

Section KickChainFacts.
Context {E : TimestepEnv}.

(** X9: kick times chain.  The short-range kick that an iteration of
    the kick loop gives particle [i] starts at the kick time the
    particle had before the call, [get_short_kick_time(i)], and, unless
    [do_half_kick] is set, ends at the kick time it has after the call;
    under [do_half_kick] it ends at the new [Ti_begstep], where
    [apply_half_kick] takes over. *)
Theorem advance_particle_kick_times_chain
    do_half_kick new_PM ti_min pa S bad S' bad' i p :
  rounds_to_power_of_two ->
  INT_MIN <= ti_min <= INT_MAX ->
  arr_get (ActiveParticle S) pa = Some i ->
  arr_get (P S) i = Some p ->
  0 <= TimeBin p <= 30 ->
  advance_particle do_half_kick new_PM ti_min pa (S, bad) = Some (S', bad') ->
  exists t0 t1 p',
    kicks S' = kicks S ++ [ShortRangeKick i t0 t1] /\
    arr_get (P S') i = Some p' /\
    get_short_kick_time S i = Some t0 /\
    if do_half_kick =? 0 then get_short_kick_time S' i = Some t1
    else t1 = Ti_begstep p'.
Proof.
  intros Hround Hmin Hi Hp Hbin Hrun.
  destruct (advance_particle_inv _ _ _ _ _ _ _ _ Hrun)
    as (i' & raw & p0 & r & S0 & S1 & Hi' & Hraw & Hp0 & Hrest).
  rewrite Hi in Hi'. injection Hi' as <-.
  rewrite Hp in Hp0. injection Hp0 as <-.
  cbn zeta in Hrest.
  destruct Hrest as (Hr & _ & _ & Hmove & Hp' & _ & Hk & _).
  assert (Hraw_int : INT_MIN <= raw <= INT_MAX).
  { destruct (ForceEqualTimesteps (All S) =? 0).
    - destruct (get_timestep_ti S i (uint_of new_PM)) as [t|];
        [|discriminate]. simpl in Hraw. injection Hraw as <-.
      pose proof (int_of_range t). unfold INT_MIN, INT_MAX. lia.
    - injection Hraw as <-. exact Hmin. }
  destruct (guarded_bin_step _ _ _ _ (Hround raw Hraw_int) Hbin Hr)
    as (Hb & Hdti & Hhalf).
  assert (Hb0 : 0 <= r.1)
    by (destruct (move_to_bin_bin_range _ _ _ _ _ _ Hmove); lia).
  do 3 eexists. split; [exact Hk|]. split; [exact Hp'|].
  unfold get_short_kick_time. rewrite Hp, Hp'. cbn [mbind option_bind].
  split; [reflexivity|].
  match goal with |- context [kick_particle ?A ?a ?b ?x] =>
    destruct (kick_particle_frame A a b x) as (Hbin' & Hbeg' & _) end.
  rewrite ?Hbin', ?Hbeg'. unfold kick_interval. cbn [fst snd].
  destruct (do_half_kick =? 0).
  - simpl. f_equal.
    pose proof (dti_of_bin_range r.1 ltac:(lia)).
    rewrite (uint_of_small (dti_of_bin r.1)) by lia.
    rewrite !kick_ti_u_eq by lia.
    now rewrite dti_of_bin_half, Hhalf by lia.
  - reflexivity.
Qed.

End KickChainFacts.

Lemma advance_particle_kick_times_chain_witness :
  exists S' bad' t0 t1,
    advance_particle (E := ref_env) 0 1024 (2 ^ 29) 0 (ex_scenario, 0)
    = Some (S', bad') /\
    kicks S' = [ShortRangeKick 0 t0 t1] /\
    get_short_kick_time ex_scenario 0 = Some t0 /\
    get_short_kick_time S' 0 = Some t1.
Proof.
  destruct (advance_particle (E := ref_env) 0 1024 (2 ^ 29) 0 (ex_scenario, 0))
    as [[S' bad']|] eqn:Hrun; [|vm_compute in Hrun; discriminate].
  destruct (advance_particle_kick_times_chain (E := ref_env)
              0 1024 (2 ^ 29) 0 ex_scenario 0 S' bad' 0
              (ex_halo 3 8 (inject_Z (2 ^ 46))))
    as (t0 & t1 & p' & Hk & _ & H0 & H1);
    [ exact ref_env_rounds | vm_compute; split; discriminate | reflexivity
    | reflexivity | simpl; lia | exact Hrun |].
  exists S', bad', t0, t1. split; [reflexivity|].
  split; [exact Hk|]. split; [exact H0|exact H1].
Defined.

(** ** Entropy after a kick *)

Section EntropyFloorFacts.
Context {E : TimestepEnv}.

Lemma kick_particle_entropy_floor A tistart tiend p :
  PType p = 0 ->
  ((1 # 2) * Entropy p <= Entropy (kick_particle A tistart tiend p))%Q /\
  (Qnonzero (MinEgySpec A) = true ->
   MinEgySpec A * GAMMA_MINUS1 / pow (EOMDensity p * cf_a3inv A) GAMMA_MINUS1
   <= Entropy (kick_particle A tistart tiend p))%Q.
Proof.
  intros Hgas. unfold kick_particle. rewrite Hgas. simpl.
  set (dt := dloga_from_dti _).
  set (minentropy := (MinEgySpec A * GAMMA_MINUS1 / pow _ _)%Q).
  set (e1 := if Qltb (DtEntropy p * dt) _ then _ else _).
  assert (He1 : ((1 # 2) * Entropy p <= e1)%Q).
  { subst e1. destruct (Qltb _ _) eqn:Hc.
    - lra.
    - apply Qltb_false in Hc. lra. }
  destruct (Qnonzero (MinEgySpec A)); simpl.
  - destruct (Qltb e1 minentropy) eqn:Hc.
    + apply Qltb_true in Hc. split; [lra|]. intros _. lra.
    + apply Qltb_false in Hc. split; [exact He1|]. intros _. exact Hc.
  - split; [exact He1|]. discriminate.
Qed.

(** X10: a short-range kick never leaves a gas particle with less than
    half of its entropy, and when [All.MinEgySpec] is set never with
    less than the entropy floor of its density; for a particle that is
    not gas it changes the velocity only. *)
Theorem short_range_kick_entropy_floor S i tistart tiend p :
  arr_get (P S) i = Some p ->
  exists S' p',
    do_the_short_range_kick i tistart tiend S = Some S' /\
    arr_get (P S') i = Some p' /\
    (PType p = 0 ->
     ((1 # 2) * Entropy p <= Entropy p')%Q /\
     (Qnonzero (MinEgySpec (All S)) = true ->
      MinEgySpec (All S) * GAMMA_MINUS1
      / pow (EOMDensity p * cf_a3inv (All S)) GAMMA_MINUS1
      <= Entropy p')%Q) /\
    (PType p <> 0 ->
     p' = set_Vel p (vec_add_scaled (Vel p) (GravAccel p)
                       (get_gravkick_factor tistart tiend))).
Proof.
  intros Hp.
  destruct (do_the_short_range_kick_total i tistart tiend S) as [S' HS'];
    [eauto|].
  destruct (do_the_short_range_kick_inv _ _ _ _ _ _ Hp HS') as (Hp' & _).
  exists S', (kick_particle (All S) tistart tiend p).
  split; [exact HS'|]. split; [exact Hp'|]. split.
  - intros Hgas. now apply kick_particle_entropy_floor.
  - intros Hne. unfold kick_particle.
    destruct (Z.eqb_spec (PType p) 0); [contradiction|reflexivity].
Qed.

(** ** Kicks of a collisionless particle compose *)



End EntropyFloorFacts.


Lemma short_range_kick_entropy_floor_witness :
  exists S' p',
    do_the_short_range_kick (E := ref_env) 0 0 512
      (ex_state 0 0 [ex_gas 10 0 1 (- inject_Z (2 ^ 22))] [0]) = Some S' /\
    arr_get (P S') 0 = Some p' /\
    ((1 # 2) * 1 <= Entropy p')%Q.
Proof.
  destruct (short_range_kick_entropy_floor (E := ref_env)
              (ex_state 0 0 [ex_gas 10 0 1 (- inject_Z (2 ^ 22))] [0]) 0 0 512
              (ex_gas 10 0 1 (- inject_Z (2 ^ 22))) eq_refl)
    as (S' & p' & Hrun & Hp' & Hgas & _).
  exists S', p'. split; [exact Hrun|]. split; [exact Hp'|].
  apply (Hgas eq_refl).
Defined.


(** ** The equalised step and the softening table *)

Section EqualizeFacts.
Context {E : TimestepEnv}.



End EqualizeFacts.





(** ** The counters are a histogram of the particles *)

Lemma count_if_cons f p ps :
  count_if f (p :: ps) = (if f p then 1 else 0) + count_if f ps.
Proof. unfold count_if. simpl. destruct (f p); simpl; lia. Qed.

Lemma count_if_single f p : count_if f [p] = if f p then 1 else 0.
Proof. unfold count_if. simpl. now destruct (f p). Qed.

Lemma count_if_app f ps qs :
  count_if f (ps ++ qs) = count_if f ps + count_if f qs.
Proof.
  unfold count_if. rewrite List.filter_app, length_app. lia.
Qed.

Lemma count_if_take_S f ps k p :
  ps !! k = Some p ->
  count_if f (take (Datatypes.S k) ps)
  = count_if f (take k ps) + (if f p then 1 else 0).
Proof.
  intros Hp. rewrite (take_S_r _ _ _ Hp), count_if_app.
  rewrite count_if_single. reflexivity.
Qed.

Lemma count_if_bounds f ps : 0 <= count_if f ps <= Z.of_nat (length ps).
Proof.
  induction ps as [|p ps IH]; [unfold count_if; simpl; lia|].
  rewrite count_if_cons. cbn [length]. destruct (f p); lia.
Qed.

(** A particle of the list counts for [f], or leaves room below the
    length of the list. *)
Lemma count_if_member (f : particle -> bool) (ps : list particle) (k : nat) p :
  ps !! k = Some p ->
  if f p then 1 <= count_if f ps
  else count_if f ps + 1 <= Z.of_nat (length ps).
Proof.
  revert k. induction ps as [|q ps IH]; intros k Hp; [discriminate|].
  rewrite count_if_cons. cbn [length].
  pose proof (count_if_bounds f ps).
  destruct k as [|k]; simpl in Hp.
  - injection Hp as ->. destruct (f p); lia.
  - specialize (IH k Hp). destruct (f p), (f q); lia.
Qed.

Lemma count_if_insert f (ps : list particle) (k : nat) p q :
  ps !! k = Some p ->
  count_if f (<[k := q]> ps)
  = count_if f ps - (if f p then 1 else 0) + (if f q then 1 else 0).
Proof.
  revert k. induction ps as [|r ps IH]; intros k Hp; [discriminate|].
  destruct k as [|k]; simpl in Hp.
  - injection Hp as ->. simpl. rewrite !count_if_cons. lia.
  - simpl. rewrite !count_if_cons, (IH k Hp). lia.
Qed.

Lemma count_if_fmap f g ps :
  (forall p, f (g p) = f p) -> count_if f (g <$> ps) = count_if f ps.
Proof.
  intros Hfg. induction ps as [|p ps IH]; [reflexivity|].
  rewrite fmap_cons, !count_if_cons, Hfg, IH. reflexivity.
Qed.

(** A list that differs from [ps] at index [i] only is [ps] with that
    entry replaced. *)
Lemma arr_pointwise_insert {A} (ps ps' : list A) i q :
  length ps' = length ps ->
  arr_get ps' i = Some q ->
  (forall j, j <> i -> arr_get ps' j = arr_get ps j) ->
  ps' = <[Z.to_nat i := q]> ps.
Proof.
  intros Hlen Hq Hother. pose proof (arr_get_Some _ _ _ Hq) as Hi.
  apply list_eq. intros n.
  destruct (decide (n = Z.to_nat i)) as [->|Hn].
  - rewrite list_lookup_insert_eq by lia. now apply arr_get_lookup.
  - rewrite list_lookup_insert_ne by congruence.
    specialize (Hother (Z.of_nat n) ltac:(lia)). unfold arr_get in Hother.
    destruct (Z.ltb_spec (Z.of_nat n) 0); [lia|].
    now rewrite Nat2Z.id in Hother.
Qed.

Section HistogramFacts.
Context {E : TimestepEnv}.

Lemma counts_particles_nil :
  counts_particles [] (replicate (Z.to_nat TIMEBINS) 0)
    (replicate 6 (replicate (Z.to_nat TIMEBINS) 0)).
Proof.
  assert (Hz : forall b, 0 <= b < TIMEBINS ->
            arr_get (replicate (Z.to_nat TIMEBINS) 0) b = Some 0).
  { intros b Hb. unfold arr_get. destruct (Z.ltb_spec b 0); [lia|].
    apply lookup_replicate_2. lia. }
  split.
  - intros b Hb. now rewrite Hz.
  - intros t b Ht Hb. exists (replicate (Z.to_nat TIMEBINS) 0).
    split; [|now rewrite Hz].
    unfold arr_get. destruct (Z.ltb_spec t 0); [lia|].
    apply lookup_replicate_2. lia.
Qed.

(** Counting one more particle keeps the counters a histogram of the
    particles counted so far. *)
Lemma count_particle_histogram act i p ps active cnt cntT active' cnt' cntT' :
  count_particle act i p (active, cnt, cntT) = Some (active', cnt', cntT') ->
  0 <= TimeBin p < TIMEBINS -> 0 <= PType p < 6 ->
  Z.of_nat (length ps) < INT_MAX ->
  counts_particles ps cnt cntT ->
  counts_particles (ps ++ [p]) cnt' cntT'.
Proof.
  unfold count_particle. intros Hrun Hbin Htype Hlen [Hc HcT].
  destruct (arr_get act (TimeBin p)) as [a|]; [|discriminate].
  cbn [mbind option_bind] in Hrun.
  destruct (arr_get cnt (TimeBin p)) as [c|] eqn:Hcb; [|discriminate].
  cbn [mbind option_bind] in Hrun.
  destruct (arr_set cnt (TimeBin p) _) as [cnt1|] eqn:Hcnt1; [|discriminate].
  cbn [mbind option_bind] in Hrun.
  destruct (arr_get cntT (PType p)) as [row|] eqn:Hrow; [|discriminate].
  cbn [mbind option_bind] in Hrun.
  destruct (arr_get row (TimeBin p)) as [ct|] eqn:Hct; [|discriminate].
  cbn [mbind option_bind] in Hrun.
  destruct (arr_set row (TimeBin p) _) as [row1|] eqn:Hrow1; [|discriminate].
  cbn [mbind option_bind] in Hrun.
  destruct (arr_set cntT (PType p) _) as [cntT1|] eqn:HcntT1; [|discriminate].
  injection Hrun as _ <- <-.
  unfold INT_MAX in Hlen.
  split.
  - intros b Hb. rewrite (arr_get_set _ _ _ _ _ Hcnt1), count_if_app.
    rewrite count_if_single. unfold in_bin at 2.
    rewrite (Hc _ Hbin) in Hcb. injection Hcb as <-.
    pose proof (count_if_bounds (in_bin (TimeBin p)) ps).
    rewrite (Z.eqb_sym (TimeBin p) b).
    destruct (Z.eqb_spec b (TimeBin p)) as [->|Hne].
    + rewrite int_of_small by (unfold INT_MIN, INT_MAX; lia). f_equal; lia.
    + rewrite (Hc _ Hb). f_equal; lia.
  - intros t b Ht Hb. rewrite (arr_get_set _ _ _ _ _ HcntT1), count_if_app.
    rewrite count_if_single. unfold in_type_bin at 2.
    destruct (HcT _ _ Htype Hbin) as (row0 & Hrow0 & Hct0).
    rewrite Hrow in Hrow0. injection Hrow0 as <-.
    rewrite Hct in Hct0. injection Hct0 as ->.
    pose proof (count_if_bounds (in_type_bin (PType p) (TimeBin p)) ps).
    rewrite (Z.eqb_sym (PType p) t), (Z.eqb_sym (TimeBin p) b).
    destruct (Z.eqb_spec t (PType p)) as [->|Hne].
    + exists row1. split; [reflexivity|].
      rewrite (arr_get_set _ _ _ _ _ Hrow1).
      destruct (Z.eqb_spec b (TimeBin p)) as [->|Hne]; simpl.
      * rewrite int_of_small by (unfold INT_MIN, INT_MAX; lia). f_equal; lia.
      * destruct (HcT _ _ Htype Hb) as (row0 & Hrow0 & Hct0).
        rewrite Hrow in Hrow0. injection Hrow0 as <-.
        rewrite Hct0. f_equal; lia.
    + destruct (HcT _ _ Ht Hb) as (row0 & Hrow0 & Hct0).
      exists row0. split; [exact Hrow0|]. rewrite Hct0. simpl. f_equal; lia.
Qed.

(** What [rebuild_activelist] leaves in the counters, when it returns. *)
Lemma rebuild_activelist_histogram S S' :
  rebuild_activelist S = Some S' ->
  particles_in_range S -> NumPart S <= INT_MAX ->
  registry_counts_particles S'.
Proof.
  unfold rebuild_activelist. intros Hrun Hpart Hnum.
  match type of Hrun with context [for_loop ?trips ?lo ?body ?b0] =>
    destruct (for_loop trips lo body b0) as [[[active cnt] cntT]|] eqn:Hloop;
      [|discriminate];
    pose proof (for_loop_partial
      (fun k (acc : list Z * list Z * list (list Z)) =>
         counts_particles (take (Z.to_nat k) (P S)) acc.1.2 acc.2)
      trips lo body b0 (active, cnt, cntT)) as Hinv
  end.
  cbn [mbind option_bind] in Hrun. injection Hrun as <-.
  unfold registry_counts_particles. simpl.
  rewrite <- (firstn_all (P S)) at 1.
  replace (length (P S)) with (Z.to_nat (0 + Z.of_nat (length (P S)))) at 1
    by lia.
  apply Hinv; [apply counts_particles_nil| |exact Hloop].
  intros k [[act1 cnt1] cntT1] [[act2 cnt2] cntT2] Hk Hacc Hbody.
  clear Hinv Hloop. cbn [fst snd] in *. cbn beta in Hbody.
  destruct (arr_get (P S) k) as [p|] eqn:Hp; [|discriminate].
  cbn [mbind option_bind] in Hbody.
  pose proof (Forall_arr_get _ _ _ _ Hpart Hp) as [Hbin Htype].
  apply arr_get_lookup in Hp.
  replace (Z.to_nat (k + 1)) with (Datatypes.S (Z.to_nat k)) by lia.
  rewrite (take_S_r _ _ _ Hp).
  apply (count_particle_histogram _ _ _ _ _ _ _ _ _ _ Hbody Hbin Htype);
    [|exact Hacc].
  rewrite length_take. unfold NumPart in Hnum. lia.
Qed.

(** The two fetch-and-adds on one array of counters. *)
Lemma move_count (cnt cnt1 cnt2 : list Z) binold bin c c' :
  arr_get cnt binold = Some c ->
  arr_set cnt binold (int_of (c + -1)) = Some cnt1 ->
  arr_get cnt1 bin = Some c' ->
  arr_set cnt1 bin (int_of (c' + 1)) = Some cnt2 ->
  binold <> bin ->
  arr_get cnt bin = Some c' /\
  forall b, arr_get cnt2 b =
            if b =? bin then Some (int_of (c' + 1))
            else if b =? binold then Some (int_of (c + -1))
            else arr_get cnt b.
Proof.
  intros Hc H1 Hc' H2 Hne.
  rewrite (arr_get_set _ _ _ _ _ H1) in Hc'.
  destruct (Z.eqb_spec bin binold); [congruence|].
  split; [exact Hc'|]. intros b.
  rewrite (arr_get_set _ _ _ _ _ H2), (arr_get_set _ _ _ _ _ H1).
  reflexivity.
Qed.

(** Moving one counted particle from [binold] to [bin] keeps a counter
    of [f]-particles right, as long as the list fits an [int]. *)
Lemma move_count_value f (ps : list particle) (k : nat) p q c c' :
  ps !! k = Some p ->
  Z.of_nat (length ps) <= INT_MAX ->
  (f p = true -> c = count_if f ps) ->
  (f q = true -> c' = count_if f ps) ->
  (f p = negb (f q)) ->
  count_if f (<[k := q]> ps)
  = if f q then int_of (c' + 1) else int_of (c + -1).
Proof.
  intros Hp Hlen Hc Hc' Hpq. rewrite (count_if_insert f ps k p q Hp).
  pose proof (count_if_member f ps k p Hp) as Hm.
  pose proof (count_if_bounds f ps) as Hb. unfold INT_MAX in Hlen.
  destruct (f q); simpl in Hpq; rewrite Hpq in *.
  - rewrite Hc' by reflexivity.
    rewrite int_of_small by (unfold INT_MIN, INT_MAX; lia). lia.
  - rewrite Hc by reflexivity.
    rewrite int_of_small by (unfold INT_MIN, INT_MAX; lia). lia.
Qed.

(** The four fetch-and-adds of a bin move, together with the store of
    the new bin, keep the counters a histogram of the particles. *)
Lemma migrate_counts_histogram pa i p q S S' :
  arr_get (P S) i = Some p ->
  TimeBin q <> TimeBin p -> PType q = PType p ->
  migrate_counts pa (PType p) (TimeBin p) (TimeBin q) S = Some S' ->
  NumPart S <= INT_MAX ->
  registry_counts_particles S ->
  counts_particles (<[Z.to_nat i := q]> (P S))
    (TimeBinCount S') (TimeBinCountType S').
Proof.
  intros Hp Hne Hty Hrun Hnum [Hc HcT]. unfold migrate_counts in Hrun.
  apply arr_get_lookup in Hp. unfold NumPart in Hnum.
  destruct (arr_get (TimeBinCount S) (TimeBin p)) as [c|] eqn:Hc0;
    [|discriminate].
  cbn [mbind option_bind] in Hrun.
  destruct (arr_set (TimeBinCount S) _ _) as [cnt1|] eqn:Hcnt1; [|discriminate].
  cbn [mbind option_bind] in Hrun.
  destruct (arr_get cnt1 (TimeBin q)) as [c'|] eqn:Hc1; [|discriminate].
  cbn [mbind option_bind] in Hrun.
  destruct (arr_set cnt1 _ _) as [cnt2|] eqn:Hcnt2; [|discriminate].
  cbn [mbind option_bind] in Hrun.
  destruct (arr_get (TimeBinCountType S) (PType p)) as [row|] eqn:Hrow;
    [|discriminate].
  cbn [mbind option_bind] in Hrun.
  destruct (arr_get row (TimeBin p)) as [d|] eqn:Hd0; [|discriminate].
  cbn [mbind option_bind] in Hrun.
  destruct (arr_set row _ _) as [row1|] eqn:Hrow1; [|discriminate].
  cbn [mbind option_bind] in Hrun.
  destruct (arr_get row1 (TimeBin q)) as [d'|] eqn:Hd1; [|discriminate].
  cbn [mbind option_bind] in Hrun.
  destruct (arr_set row1 _ _) as [row2|] eqn:Hrow2; [|discriminate].
  cbn [mbind option_bind] in Hrun.
  destruct (arr_set (TimeBinCountType S) _ _) as [cntT|] eqn:HcntT;
    [|discriminate].
  injection Hrun as <-. simpl.
  destruct (move_count _ _ _ _ _ _ _ Hc0 Hcnt1 Hc1 Hcnt2 ltac:(congruence))
    as [Hcq Hcnt].
  destruct (move_count _ _ _ _ _ _ _ Hd0 Hrow1 Hd1 Hrow2 ltac:(congruence))
    as [Hdq Hrowq].
  split.
  - intros b Hb. rewrite Hcnt.
    destruct (Z.eqb_spec b (TimeBin q)) as [->|Hnq];
      [|destruct (Z.eqb_spec b (TimeBin p)) as [->|Hnp]].
    + rewrite (move_count_value _ _ _ p q c c' Hp Hnum).
      * unfold in_bin. now rewrite Z.eqb_refl.
      * unfold in_bin. intros Heq%Z.eqb_eq. congruence.
      * intros _. rewrite (Hc _ Hb) in Hcq. congruence.
      * unfold in_bin. rewrite Z.eqb_refl. simpl. now apply Z.eqb_neq.
    + rewrite (move_count_value _ _ _ p q c c' Hp Hnum).
      * unfold in_bin.
        destruct (Z.eqb_spec (TimeBin q) (TimeBin p)); [contradiction|].
        reflexivity.
      * intros _. rewrite (Hc _ Hb) in Hc0. congruence.
      * unfold in_bin. intros Heq%Z.eqb_eq. contradiction.
      * unfold in_bin. rewrite Z.eqb_refl.
        destruct (Z.eqb_spec (TimeBin q) (TimeBin p)); [contradiction|].
        reflexivity.
    + rewrite (Hc _ Hb), (count_if_insert _ _ _ p q Hp). unfold in_bin.
      destruct (Z.eqb_spec (TimeBin p) b); [congruence|].
      destruct (Z.eqb_spec (TimeBin q) b); [congruence|].
      f_equal; lia.
  - intros t b Ht Hb. rewrite (arr_get_set _ _ _ _ _ HcntT).
    destruct (HcT t b Ht Hb) as (row0 & Hrow0 & Hcount0).
    destruct (Z.eqb_spec t (PType p)) as [->|Hnt].
    + rewrite Hrow in Hrow0. injection Hrow0 as <-.
      exists row2. split; [reflexivity|]. rewrite Hrowq.
      destruct (Z.eqb_spec b (TimeBin q)) as [->|Hnq];
        [|destruct (Z.eqb_spec b (TimeBin p)) as [->|Hnp]].
      * rewrite (move_count_value _ _ _ p q d d' Hp Hnum).
        -- unfold in_type_bin. now rewrite Hty, !Z.eqb_refl.
        -- unfold in_type_bin. intros [_ Heq%Z.eqb_eq]%andb_true_iff.
           congruence.
        -- intros _. rewrite Hcount0 in Hdq. congruence.
        -- unfold in_type_bin. rewrite Hty, !Z.eqb_refl. simpl.
           now apply Z.eqb_neq.
      * rewrite (move_count_value _ _ _ p q d d' Hp Hnum).
        -- unfold in_type_bin.
           destruct (Z.eqb_spec (TimeBin q) (TimeBin p)); [contradiction|].
           now rewrite andb_false_r.
        -- intros _. rewrite Hcount0 in Hd0. congruence.
        -- unfold in_type_bin. intros [_ Heq%Z.eqb_eq]%andb_true_iff.
           contradiction.
        -- unfold in_type_bin. rewrite Hty, !Z.eqb_refl.
           destruct (Z.eqb_spec (TimeBin q) (TimeBin p)); [contradiction|].
           reflexivity.
      * rewrite Hcount0, (count_if_insert _ _ _ p q Hp). unfold in_type_bin.
        destruct (Z.eqb_spec (TimeBin p) b); [congruence|].
        destruct (Z.eqb_spec (TimeBin q) b); [congruence|].
        rewrite !andb_false_r. f_equal; lia.
    + exists row0. split; [exact Hrow0|].
      rewrite Hcount0, (count_if_insert _ _ _ p q Hp). unfold in_type_bin.
      rewrite Hty.
      destruct (Z.eqb_spec (PType p) t); [congruence|]. simpl. f_equal; lia.
Qed.

(** One iteration of the kick loop keeps the counters a histogram of
    the particles. *)
Lemma advance_particle_histogram
    do_half_kick new_PM ti_min pa S bad S' bad' :
  advance_particle do_half_kick new_PM ti_min pa (S, bad) = Some (S', bad') ->
  NumPart S <= INT_MAX ->
  registry_counts_particles S ->
  registry_counts_particles S' /\ length (P S') = length (P S).
Proof.
  intros Hrun Hnum Hreg.
  destruct (advance_particle_inv _ _ _ _ _ _ _ _ Hrun)
    as (i & raw & p & r & S0 & S1 & _ & _ & Hp & Hrest).
  cbn zeta in Hrest.
  destruct Hrest
    as (_ & HS0 & _ & Hmove & Hp' & Hother & _ & Hc & HcT & _ & Hlen).
  split; [|exact Hlen].
  set (q := kick_particle _ _ _ _) in Hp'.
  destruct (kick_particle_frame (All S)
              (kick_interval do_half_kick (Ti_begstep p) (TimeBin p) r.2).1
              (kick_interval do_half_kick (Ti_begstep p) (TimeBin p) r.2).2
              (set_Ti_begstep (set_TimeBin p r.1)
                 (uint_of (Ti_begstep p + uint_of (dti_of_bin (TimeBin p))))))
    as (Hqbin & _ & Hqty).
  fold q in Hqbin, Hqty. simpl in Hqbin, Hqty.
  assert (H0 : P S0 = P S /\ TimeBinCount S0 = TimeBinCount S /\
               TimeBinCountType S0 = TimeBinCountType S).
  { subst S0. destruct (_ <? 1); repeat split. }
  destruct H0 as (HP0 & Hc0 & HcT0).
  unfold registry_counts_particles.
  rewrite (arr_pointwise_insert (P S) (P S') i q Hlen Hp' Hother), Hc, HcT.
  unfold move_to_bin in Hmove.
  destruct (Z.eqb_spec r.1 (TimeBin p)) as [Heq|Hne].
  - injection Hmove as <-. rewrite Hc0, HcT0.
    pose proof (arr_get_lookup _ _ _ Hp) as Hl.
    destruct Hreg as [Hb HbT]. split.
    + intros b Hbr. rewrite (Hb _ Hbr), (count_if_insert _ _ _ p q Hl).
      unfold in_bin. rewrite Hqbin, Heq. f_equal; lia.
    + intros t b Ht Hbr. destruct (HbT t b Ht Hbr) as (row & Hrow & Hct).
      exists row. split; [exact Hrow|].
      rewrite Hct, (count_if_insert _ _ _ p q Hl).
      unfold in_type_bin. rewrite Hqbin, Hqty, Heq. f_equal; lia.
  - destruct (migrate_counts _ _ _ _ S0) as [Sm|] eqn:Hm; [|discriminate].
    cbn [mbind option_bind] in Hmove.
    destruct (arr_set (P Sm) i _) as [ps|]; [|discriminate].
    injection Hmove as <-. simpl.
    rewrite <- HP0. rewrite <- Hqbin in Hm, Hne.
    apply (migrate_counts_histogram pa i p q S0 Sm); auto.
    + now rewrite HP0.
    + unfold NumPart. now rewrite HP0.
    + unfold registry_counts_particles. now rewrite HP0, Hc0, HcT0.
Qed.

(** The whole call keeps the counters a histogram of the particles. *)
Lemma advance_and_find_timesteps_histogram do_half_kick long_range_ti S S' bad :
  advance_and_find_timesteps do_half_kick long_range_ti S = Some (S', bad) ->
  NumPart S <= INT_MAX ->
  registry_counts_particles S ->
  registry_counts_particles S' /\ NumPart S' = NumPart S.
Proof.
  unfold advance_and_find_timesteps. intros H Hnum Hreg.
  set (new_PM := if is_PM_timestep S _ then _ else _) in *.
  match type of H with (?d ≫= _) = _ =>
    destruct d as [[S1 tmin]|] eqn:Heq end; [|discriminate].
  cbn [mbind option_bind fst snd] in H.
  assert (HF1 : P S1 = P S /\ TimeBinCount S1 = TimeBinCount S /\
                TimeBinCountType S1 = TimeBinCountType S).
  { destruct (ForceEqualTimesteps (All S) =? 0).
    - injection Heq as <- <-. repeat split.
    - destruct (equalize_timesteps_frame _ _ _ _ Heq)
        as (? & ? & ? & ? & ? & ?). auto. }
  destruct HF1 as (HP1 & Hc1 & HcT1).
  destruct (for_loop _ _ _ _) as [[S2 bad2]|] eqn:Hloop; [|discriminate].
  cbn [mbind option_bind fst snd] in H.
  set (Inv := fun (_ : Z) (st : state * Z) =>
    registry_counts_particles st.1 /\ length (P st.1) = length (P S)).
  assert (Hinv : Inv (0 + Z.of_nat (length (ActiveParticle S1))) (S2, bad2)).
  { apply (for_loop_partial Inv _ _ _ _ _) with (3 := Hloop); unfold Inv.
    - cbn [fst]. unfold registry_counts_particles.
      rewrite HP1, Hc1, HcT1. auto.
    - intros k [St b] [St' b'] _ [Hst Hlen] Hbody. cbn [fst] in *.
      destruct (advance_particle_histogram _ _ _ _ _ _ _ _ Hbody) as [Hr Hl];
        [unfold NumPart in *; rewrite Hlen; exact Hnum|exact Hst|].
      split; [exact Hr|congruence]. }
  destruct Hinv as [Hreg2 Hlen2]. cbn [fst] in *.
  assert (Hdone : registry_counts_particles S2 /\ NumPart S2 = NumPart S)
    by (unfold NumPart; split; [exact Hreg2|now rewrite Hlen2]).
  destruct (negb (bad2 =? 0)); [injection H as <- <-; exact Hdone|].
  destruct (is_PM_timestep S2 _); [|injection H as <- <-; exact Hdone].
  injection H as <- <-.
  unfold registry_counts_particles, do_the_long_range_kick, NumPart. simpl.
  split; [|rewrite length_fmap; apply Hdone].
  destruct Hreg2 as [Hb HbT]. split.
  - intros b Hbr. rewrite (Hb _ Hbr), count_if_fmap; [reflexivity|].
    now intros [].
  - intros t b Ht Hbr. destruct (HbT t b Ht Hbr) as (row & Hrow & Hct).
    exists row. split; [exact Hrow|].
    rewrite Hct, count_if_fmap; [reflexivity|]. now intros [].
Qed.

(** X14: [rebuild_activelist] returns and leaves in [TimeBinCount[b]]
    the number of particles whose bin is [b], and in
    [TimeBinCountType[t][b]] the number of those of type [t]; the
    particles are unchanged. *)
Theorem rebuild_activelist_counts_particles S :
  0 <= TIMEBINS ->
  Z.of_nat (length (TimeBinActive S)) = TIMEBINS ->
  particles_in_range S ->
  NumPart S <= INT_MAX ->
  exists S', rebuild_activelist S = Some S' /\
    P S' = P S /\
    (forall b, 0 <= b < TIMEBINS ->
       arr_get (TimeBinCount S') b = Some (count_if (in_bin b) (P S))) /\
    (forall t b, 0 <= t < 6 -> 0 <= b < TIMEBINS ->
       exists row, arr_get (TimeBinCountType S') t = Some row /\
         arr_get row b = Some (count_if (in_type_bin t b) (P S))).
Proof.
  intros HT Hact Hpart Hnum.
  destruct (rebuild_activelist_accounting S HT Hact Hpart Hnum)
    as (S' & Hrun & _ & _ & HP).
  exists S'. split; [exact Hrun|]. split; [exact HP|].
  pose proof (rebuild_activelist_histogram S S' Hrun Hpart Hnum) as Hreg.
  unfold registry_counts_particles in Hreg. rewrite HP in Hreg. exact Hreg.
Qed.

(** X15: a call of [advance_and_find_timesteps] that starts with
    counters that are the histogram of the particles over bins and
    types ends with such counters, whatever bins the particles moved
    to, and with as many particles: no decrement or increment of a
    counter wraps. *)
Theorem advance_and_find_timesteps_counts_particles
    do_half_kick long_range_ti S S' bad :
  advance_and_find_timesteps do_half_kick long_range_ti S = Some (S', bad) ->
  NumPart S <= INT_MAX ->
  registry_counts_particles S ->
  registry_counts_particles S' /\ NumPart S' = NumPart S.
Proof.
  intros H Hnum Hreg.
  exact (advance_and_find_timesteps_histogram _ _ _ _ _ H Hnum Hreg).
Qed.

End HistogramFacts.

Lemma rebuild_activelist_counts_particles_witness :
  exists S',
    rebuild_activelist (E := ref_env)
      (ex_state 0 16 [ex_halo 3 8 1; ex_gas 4 0 1 0; ex_halo 3 8 1] [])
    = Some S' /\
    arr_get (TimeBinCount S') 3 = Some 2.
Proof.
  destruct (rebuild_activelist_counts_particles (E := ref_env)
              (ex_state 0 16 [ex_halo 3 8 1; ex_gas 4 0 1 0; ex_halo 3 8 1] []))
    as (S' & Hrun & _ & Hb & _).
  - simpl. lia.
  - reflexivity.
  - repeat constructor; simpl; lia.
  - vm_compute. discriminate.
  - exists S'. split; [exact Hrun|]. apply (Hb 3). simpl. lia.
Defined.

Lemma advance_and_find_timesteps_counts_particles_witness :
  exists S' bad,
    advance_and_find_timesteps (E := ref_env) 0 1024 ex_scenario
    = Some (S', bad) /\
    registry_counts_particles (E := ref_env) S' /\ NumPart S' = 1.
Proof.
  destruct (advance_and_find_timesteps (E := ref_env) 0 1024 ex_scenario)
    as [[S' bad]|] eqn:Hrun; [|vm_compute in Hrun; discriminate].
  exists S', bad. split; [reflexivity|].
  apply (advance_and_find_timesteps_counts_particles (E := ref_env)
           0 1024 ex_scenario S' bad Hrun).
  - vm_compute. discriminate.
  - apply (rebuild_activelist_histogram (E := ref_env)
             (default (ex_state 0 16 [] [], 0)
                (update_active_timebins (E := ref_env) 16
                   (ex_state 0 16 [ex_halo 3 8 (inject_Z (2 ^ 46))] []))).1).
    + vm_compute. reflexivity.
    + repeat constructor; simpl; lia.
    + vm_compute. discriminate.
Defined.

(** ** The number of force updates *)

Lemma count_if_ext f g ps :
  Forall (fun p => f p = g p) ps -> count_if f ps = count_if g ps.
Proof.
  induction 1 as [|p ps Hp _ IH]; [reflexivity|].
  now rewrite !count_if_cons, Hp, IH.
Qed.

Lemma count_if_split f g h ps :
  Forall (fun p => f p = g p || h p /\ g p && h p = false) ps ->
  count_if f ps = count_if g ps + count_if h ps.
Proof.
  induction 1 as [|p ps [Hp Hd] _ IH]; [reflexivity|].
  rewrite !count_if_cons, Hp, IH. destruct (g p), (h p); simpl in *; lia.
Qed.

(** The active list that [rebuild_activelist] builds is as long as the
    number of particles in marked bins. *)
Lemma active_list_length act ps :
  Z.of_nat (length (List.filter (in_active_bin act ps)
                      (seqZ 0 (Z.of_nat (length ps)))))
  = count_if (bin_is_active act) ps.
Proof.
  induction ps as [|p ps IH] using rev_ind; [reflexivity|].
  rewrite length_app, Nat2Z.inj_add. cbn [length].
  rewrite (seqZ_app 0 (Z.of_nat (length ps)) (Z.of_nat 1)) by lia.
  rewrite List.filter_app, length_app, Nat2Z.inj_add, count_if_app.
  rewrite count_if_single. f_equal.
  - rewrite <- IH. f_equal. f_equal. apply List.filter_ext_in.
    intros i Hi%list_elem_of_In%elem_of_seqZ. unfold in_active_bin, arr_get.
    destruct (Z.ltb_spec i 0); [reflexivity|].
    rewrite lookup_app_l by lia. reflexivity.
  - change (Z.of_nat 1) with 1.
    rewrite seqZ_cons, seqZ_nil by lia. cbn [List.filter].
    unfold in_active_bin, arr_get at 1.
    destruct (Z.ltb_spec (0 + Z.of_nat (length ps)) 0); [lia|].
    replace (Z.to_nat (0 + Z.of_nat (length ps))) with (length ps) by lia.
    rewrite list_lookup_middle by reflexivity.
    fold (bin_is_active act p). now destruct (bin_is_active act p).
Qed.

Section ForceUpdateFacts.
Context {E : TimestepEnv}.

(** The count that [update_active_timebins] returns, when the counters
    are a histogram of the particles. *)
Lemma update_active_timebins_num next_kick S S' num :
  update_active_timebins next_kick S = Some (S', num) ->
  1 <= TIMEBINS <= 31 ->
  particles_in_range S -> NumPart S <= INT_MAX ->
  registry_counts_particles S ->
  num = count_if
          (fun p => (TimeBin p =? 0) || (next_kick mod 2 ^ TimeBin p =? 0))
          (P S).
Proof.
  unfold update_active_timebins. intros Hrun HT Hpart Hnum [Hc _].
  destruct (arr_get (TimeBinCount S) 0) as [c0|] eqn:Hc0; [|discriminate].
  cbn [mbind option_bind] in Hrun.
  destruct (arr_set (TimeBinActive S) 0 1) as [a0|]; [|discriminate].
  cbn [mbind option_bind] in Hrun.
  destruct (for_loop _ _ _ _) as [[act n]|] eqn:Hloop; [|discriminate].
  cbn [mbind option_bind] in Hrun. injection Hrun as _ <-.
  set (af := fun b => (b =? 0) || (next_kick mod 2 ^ b =? 0)).
  set (Inv := fun (k : Z) (acc : list Z * Z) =>
    acc.2 = count_if (fun p => (TimeBin p <? k) && af (TimeBin p)) (P S)).
  assert (Hinv : Inv (1 + Z.of_nat (Z.to_nat (TIMEBINS - 1))) (act, n)).
  { apply (for_loop_partial Inv _ _ _ _ _) with (3 := Hloop); unfold Inv.
    - cbn [snd]. rewrite (Hc 0) in Hc0 by lia. injection Hc0 as <-.
      apply count_if_ext. eapply Forall_impl; [exact Hpart|].
      intros p [Hb _]. unfold in_bin, af. cbn beta.
      destruct (Z.eqb_spec (TimeBin p) 0) as [->|]; [reflexivity|].
      destruct (Z.ltb_spec (TimeBin p) 1); [lia|reflexivity].
    - intros k [act1 n1] [act2 n2] Hk Hn1 Hbody. cbn [snd] in *.
      cbn beta in Hbody.
      rewrite shl1_pow2 in Hbody by lia.
      pose proof (pow2_bound k ltac:(lia)) as Hp.
      rewrite (uint_of_small (2 ^ k)) in Hbody by lia.
      destruct (next_kick mod 2 ^ k =? 0) eqn:Hdiv.
      + destruct (arr_set act1 k 1) as [act'|]; [|discriminate].
        cbn [mbind option_bind] in Hbody.
        destruct (arr_get (TimeBinCount S) k) as [c|] eqn:Hck; [|discriminate].
        cbn [mbind option_bind] in Hbody. injection Hbody as _ <-.
        rewrite (Hc k) in Hck by lia. injection Hck as <-.
        rewrite (count_if_split
                   (fun p => (TimeBin p <? k + 1) && af (TimeBin p))
                   (fun p => (TimeBin p <? k) && af (TimeBin p))
                   (in_bin k)).
        * rewrite <- Hn1.
          pose proof (count_if_bounds
                        (fun p => (TimeBin p <? k + 1) && af (TimeBin p))
                        (P S)) as Hb.
          rewrite (count_if_split
                     (fun p => (TimeBin p <? k + 1) && af (TimeBin p))
                     (fun p => (TimeBin p <? k) && af (TimeBin p))
                     (in_bin k)) in Hb.
          -- rewrite <- Hn1 in Hb. unfold NumPart, INT_MAX in Hnum.
             apply int_of_small. unfold INT_MIN, INT_MAX. lia.
          -- apply Forall_forall. intros p _. unfold in_bin, af.
             destruct (Z.eqb_spec (TimeBin p) k) as [->|Hne].
             ++ rewrite Hdiv, orb_true_r.
                destruct (Z.ltb_spec k (k + 1)); [|lia].
                destruct (Z.ltb_spec k k); [lia|]. auto.
             ++ rewrite !orb_false_r, andb_false_r. split; [|reflexivity].
                f_equal.
                destruct (Z.ltb_spec (TimeBin p) (k + 1)),
                         (Z.ltb_spec (TimeBin p) k); (reflexivity || lia).
        * apply Forall_forall. intros p _. unfold in_bin, af.
          destruct (Z.eqb_spec (TimeBin p) k) as [->|Hne].
          -- rewrite Hdiv, orb_true_r.
             destruct (Z.ltb_spec k (k + 1)); [|lia].
             destruct (Z.ltb_spec k k); [lia|]. auto.
          -- rewrite !orb_false_r, andb_false_r. split; [|reflexivity].
             f_equal.
             destruct (Z.ltb_spec (TimeBin p) (k + 1)),
                      (Z.ltb_spec (TimeBin p) k); (reflexivity || lia).
      + destruct (arr_set act1 k 0) as [act'|]; [|discriminate].
        cbn [mbind option_bind] in Hbody. injection Hbody as _ <-.
        rewrite Hn1. apply count_if_ext, Forall_forall. intros p _.
        unfold af. destruct (Z.eqb_spec (TimeBin p) k) as [->|Hne].
        * rewrite Hdiv.
          destruct (Z.eqb_spec k 0); [lia|]. now rewrite !andb_false_r.
        * f_equal.
          destruct (Z.ltb_spec (TimeBin p) (k + 1)),
                   (Z.ltb_spec (TimeBin p) k); (reflexivity || lia). }
  unfold Inv in Hinv. cbn [snd] in Hinv. rewrite Hinv.
  apply count_if_ext. eapply Forall_impl; [exact Hpart|].
  intros p [Hb _]. cbn beta.
  destruct (Z.ltb_spec (TimeBin p) (1 + Z.of_nat (Z.to_nat (TIMEBINS - 1))));
    [reflexivity|lia].
Qed.

(** X16: when the counters are a histogram of the particles, the count
    [update_active_timebins] returns ([NumForceUpdate]) is the number of
    particles that the following [rebuild_activelist] puts on the active
    list. *)
Theorem update_active_timebins_counts_active next_kick S :
  1 <= TIMEBINS <= 31 ->
  Z.of_nat (length (TimeBinActive S)) = TIMEBINS ->
  particles_in_range S -> NumPart S <= INT_MAX ->
  registry_counts_particles S ->
  0 <= next_kick ->
  exists S1 num S2,
    update_active_timebins next_kick S = Some (S1, num) /\
    rebuild_activelist S1 = Some S2 /\
    num = NumActiveParticle S2.
Proof.
  intros HT Hact Hpart Hnum Hreg Hk.
  assert (Hcnt : TIMEBINS <= Z.of_nat (length (TimeBinCount S))).
  { destruct Hreg as [Hc _].
    assert (Hr : 0 <= TIMEBINS - 1 < TIMEBINS) by lia.
    apply Hc, arr_get_Some in Hr. lia. }
  destruct (update_active_timebins_spec next_kick S HT Hact Hcnt Hk)
    as (S1 & num & Hrun & Hlen1 & H0 & Htab & _ & HS1).
  assert (HP1 : P S1 = P S) by (rewrite HS1; reflexivity).
  assert (HT0 : 0 <= TIMEBINS) by lia.
  destruct (rebuild_activelist_accounting S1 HT0 Hlen1)
    as (S2 & Hrun2 & _).
  { unfold particles_in_range. now rewrite HP1. }
  { unfold NumPart. now rewrite HP1. }
  exists S1, num, S2. split; [exact Hrun|]. split; [exact Hrun2|].
  destruct (rebuild_activelist_active S1 S2 Hrun2) as (HA & _).
  unfold NumActiveParticle, NumPart. rewrite HA, active_list_length, HP1.
  rewrite (update_active_timebins_num _ _ _ _ Hrun HT Hpart Hnum Hreg).
  apply count_if_ext. eapply Forall_impl; [exact Hpart|].
  intros p [Hb _]. cbn beta. unfold bin_is_active.
  destruct (Z.eqb_spec (TimeBin p) 0) as [->|Hne].
  - now rewrite H0.
  - rewrite Htab by lia. simpl.
    now destruct (next_kick mod 2 ^ TimeBin p =? 0).
Qed.

End ForceUpdateFacts.

Lemma update_active_timebins_counts_active_witness :
  exists S1 num S2,
    update_active_timebins (E := ref_env) 16 ex_two_bins = Some (S1, num) /\
    rebuild_activelist (E := ref_env) S1 = Some S2 /\
    num = NumActiveParticle S2.
Proof.
  apply (update_active_timebins_counts_active (E := ref_env) 16 ex_two_bins).
  - simpl. lia.
  - reflexivity.
  - repeat constructor; simpl; lia.
  - vm_compute. discriminate.
  - apply (rebuild_activelist_histogram (E := ref_env)
             (default (ex_state 0 8 [] [], 0)
                (update_active_timebins (E := ref_env) 8
                   (ex_state 0 8 [ex_halo 5 0 1; ex_halo 3 8 1] []))).1).
    + vm_compute. reflexivity.
    + repeat constructor; simpl; lia.
    + vm_compute. discriminate.
  - lia.
Defined.

(** ** Successive kicks *)



Section KickChainFacts.
Context {E : TimestepEnv}.







End KickChainFacts.




